(** * AstroBot: the chart engine of [astro_calc.py]

    A shallow embedding of [AstroCalc], [ManglikRule], [MoonSignRule] and
    [VimshottariDasha], and the properties of the specification proved on it.

    Conventions of the embedding.
    - A Python [float] is an exact rational ([Q]): [+], [-], [*], [/] are the
      exact operations, [x // y] is the floor of the quotient and [x % y] is
      [x - y * floor (x / y)].  Rounding to binary64, infinities and NaN are
      outside the model.
    - A Python [str] is a [string]; the date and time entries are read as
      ASCII text.
    - A raised exception is the [Raise] case of [result]; nothing in
      [astro_calc.py] catches one, so it reaches the caller unchanged.
    - [swisseph] is an external library: its three entry points used by the
      code are the fields of the class [EphemerisProvider].
    - [datetime] and [timedelta] follow CPython's [datetime] module. *)

From Stdlib Require Import ZArith QArith Qround Qabs Lia Lqa Bool List.
From Stdlib Require Import Ascii String DecimalString.
Import ListNotations.

Open Scope string_scope.
Open Scope list_scope.
Open Scope Z_scope.

(* ================================================================= *)
(** ** Exceptions *)

Inductive exn : Type :=
| ValueError
| OverflowError
| KeyError
| IndexError.

Definition exn_name (e : exn) : string :=
  match e with
  | ValueError => "ValueError"
  | OverflowError => "OverflowError"
  | KeyError => "KeyError"
  | IndexError => "IndexError"
  end.

Inductive result (A : Type) : Type :=
| Ok (a : A)
| Raise (e : exn).

Arguments Ok {A} a.
Arguments Raise {A} e.

Definition bind {A B : Type} (r : result A) (k : A -> result B) : result B :=
  match r with
  | Ok a => k a
  | Raise e => Raise e
  end.

Notation "x <- r ;; k" := (bind r (fun x => k))
  (at level 61, r at next level, right associativity).
Notation "' p <- r ;; k" := (bind r (fun p => k))
  (at level 61, p pattern, r at next level, right associativity).

Fixpoint mapM {A B : Type} (f : A -> result B) (l : list A) : result (list B) :=
  match l with
  | [] => Ok []
  | a :: l' => b <- f a ;; bs <- mapM f l' ;; Ok (b :: bs)
  end.

(* ================================================================= *)
(** ** Python values, dicts and lists *)

Inductive pyval : Type :=
| VStr (s : string)
| VFloat (q : Q)
| VInt (z : Z)
| VBool (b : bool).

(** A dict keeps its keys in insertion order; [d[k]] raises [KeyError] on a
    key that is absent. *)
Fixpoint dict_lookup {V : Type} (k : string) (d : list (string * V)) : option V :=
  match d with
  | [] => None
  | (k', v) :: d' => if String.eqb k k' then Some v else dict_lookup k d'
  end.

Definition dict_get {V : Type} (d : list (string * V)) (k : string) : result V :=
  match dict_lookup k d with
  | Some v => Ok v
  | None => Raise KeyError
  end.

Definition dict_keys {V : Type} (d : list (string * V)) : list string :=
  map fst d.

(** [l[i]]: a negative index counts from the end, an index outside the list
    raises [IndexError]. *)
Definition list_get {A : Type} (l : list A) (i : Z) : result A :=
  let n := Z.of_nat (List.length l) in
  let j := if i <? 0 then i + n else i in
  if (j <? 0) || (n <=? j) then Raise IndexError
  else match nth_error l (Z.to_nat j) with
       | Some a => Ok a
       | None => Raise IndexError
       end.

(* ================================================================= *)
(** ** Float operations *)

(** [x // y] on floats: the floor of the quotient, still a float. *)
Definition float_floordiv (x y : Q) : Q := inject_Z (Qfloor (x / y)).

(** [x % y] on floats, for a positive [y]: the result has the sign of [y]. *)
Definition float_mod (x y : Q) : Q := x - y * inject_Z (Qfloor (x / y)).

(** [int(x)] on a float: truncation toward zero. *)
Definition int_of_float (x : Q) : Z := Z.quot (Qnum x) (Zpos (Qden x)).

(** Nearest integer, ties to the even one. *)
Definition round_half_even (q : Q) : Z :=
  let f := Qfloor q in
  match Qcompare (q - inject_Z f) (1 # 2) with
  | Lt => f
  | Gt => f + 1
  | Eq => if Z.even f then f else f + 1
  end.

(* ================================================================= *)
(** ** Formatting *)

Definition str_of_int (z : Z) : string := NilZero.string_of_int (Z.to_int z).

Definition pad3 (n : Z) : string :=
  let s := str_of_int n in
  if n <? 10 then ("00" ++ s)%string
  else if n <? 100 then ("0" ++ s)%string
  else s.

(** [f"{x:.3f}"]: three decimals, nearest, ties to even. *)
Definition format_3f (x : Q) : string :=
  let n := round_half_even (Qabs x * 1000) in
  ((if Qlt_le_dec x 0 then "-" else "")
     ++ str_of_int (n / 1000) ++ "." ++ pad3 (n mod 1000))%string.

Fixpoint join_ints (l : list Z) : string :=
  match l with
  | [] => ""
  | [z] => str_of_int z
  | z :: l' => (str_of_int z ++ ", " ++ join_ints l')%string
  end.

(** [str] of a list of ints. *)
Definition str_of_int_list (l : list Z) : string :=
  ("[" ++ join_ints l ++ "]")%string.

Fixpoint insert_sorted (z : Z) (l : list Z) : list Z :=
  match l with
  | [] => [z]
  | y :: l' => if z <=? y then z :: l else y :: insert_sorted z l'
  end.

Definition sorted (l : list Z) : list Z := fold_right insert_sorted [] l.

(* ================================================================= *)
(** ** Reading integers from text *)

(** The characters [str.strip] and [int] treat as white space. *)
Definition is_space (c : ascii) : bool :=
  let n := N_of_ascii c in
  ((9 <=? n) && (n <=? 13) || (28 <=? n) && (n <=? 32))%N.

Definition is_digit (c : ascii) : bool :=
  let n := N_of_ascii c in ((48 <=? n) && (n <=? 57))%N.

Definition digit_value (c : ascii) : Z := Z.of_N (N_of_ascii c) - 48.

Fixpoint lstrip (s : string) : string :=
  match s with
  | String c s' => if is_space c then lstrip s' else s
  | EmptyString => EmptyString
  end.

Fixpoint rstrip (s : string) : string :=
  match s with
  | EmptyString => EmptyString
  | String c s' =>
      match rstrip s' with
      | EmptyString => if is_space c then EmptyString else String c EmptyString
      | t => String c t
      end
  end.

Definition strip (s : string) : string := rstrip (lstrip s).

(** [s.split(sep)] for a one-character separator: every occurrence cuts, so
    the result is never empty. *)
Fixpoint str_split (sep : ascii) (s : string) : list string :=
  match s with
  | EmptyString => [EmptyString]
  | String c s' =>
      if Ascii.eqb c sep then EmptyString :: str_split sep s'
      else match str_split sep s' with
           | [] => [String c EmptyString]
           | w :: ws => String c w :: ws
           end
  end.

(** The digits of a base-10 literal: a digit first, then digits, each
    optionally preceded by one underscore.  [acc] is the value read so far,
    [prev_us] tells that the previous character was an underscore. *)
Fixpoint read_digits (s : string) (acc : Z) (prev_us : bool) : option Z :=
  match s with
  | EmptyString => if prev_us then None else Some acc
  | String c s' =>
      if is_digit c then read_digits s' (10 * acc + digit_value c) false
      else if Ascii.eqb c "_" then
             if prev_us then None else read_digits s' acc true
           else None
  end.

Definition read_unsigned (s : string) : option Z :=
  match s with
  | String c _ => if is_digit c then read_digits s 0 false else None
  | EmptyString => None
  end.

(** [int(s)] on ASCII text: surrounding white space, an optional sign, a
    base-10 literal; anything else raises [ValueError].  The limit on the
    number of digits is not modelled. *)
Definition int_of_str (s : string) : result Z :=
  let t := strip s in
  let r := match t with
           | String "+" t' => read_unsigned t'
           | String "-" t' => option_map Z.opp (read_unsigned t')
           | _ => read_unsigned t
           end in
  match r with
  | Some z => Ok z
  | None => Raise ValueError
  end.

(** [a, b, c = l] *)
Definition unpack3 {A : Type} (l : list A) : result (A * A * A) :=
  match l with
  | [a; b; c] => Ok (a, b, c)
  | _ => Raise ValueError
  end.

(** [a, b = l] *)
Definition unpack2 {A : Type} (l : list A) : result (A * A) :=
  match l with
  | [a; b] => Ok (a, b)
  | _ => Raise ValueError
  end.

(* ================================================================= *)
(** ** The calendar of [datetime] *)

Module Calendar.

Definition MINYEAR : Z := 1.
Definition MAXYEAR : Z := 9999.
(** [date.max.toordinal()] *)
Definition MAXORDINAL : Z := 3652059.

Definition DAYS_IN_MONTH : list Z :=
  [-1; 31; 28; 31; 30; 31; 30; 31; 31; 30; 31; 30; 31].

Definition DAYS_BEFORE_MONTH : list Z :=
  [-1; 0; 31; 59; 90; 120; 151; 181; 212; 243; 273; 304; 334].

Definition table (t : list Z) (i : Z) : Z := nth (Z.to_nat i) t 0.

Definition is_leap (year : Z) : bool :=
  (year mod 4 =? 0) && (negb (year mod 100 =? 0) || (year mod 400 =? 0)).

Definition days_before_year (year : Z) : Z :=
  let y := year - 1 in
  y * 365 + y / 4 - y / 100 + y / 400.

Definition days_in_month (year month : Z) : Z :=
  if (month =? 2) && is_leap year then 29 else table DAYS_IN_MONTH month.

Definition days_before_month (year month : Z) : Z :=
  table DAYS_BEFORE_MONTH month
  + (if (2 <? month) && is_leap year then 1 else 0).

(** The proleptic Gregorian ordinal: 0001-01-01 is day 1. *)
Definition ymd2ord (year month day : Z) : Z :=
  days_before_year year + days_before_month year month + day.

Definition DI400Y : Z := 146097.
Definition DI100Y : Z := 36524.
Definition DI4Y : Z := 1461.

(** The date within a 400-year cycle: [r] is the zero-based day of the
    cycle, the returned year is counted from the first year of the cycle. *)
Definition ord2ymd_cycle (r : Z) : Z * Z * Z :=
  let n100 := r / DI100Y in
  let n := r mod DI100Y in
  let n4 := n / DI4Y in
  let n := n mod DI4Y in
  let n1 := n / 365 in
  let n := n mod 365 in
  let year := n100 * 100 + n4 * 4 + n1 in
  if (n1 =? 4) || (n100 =? 4) then (year - 1, 12, 31)
  else
    let leapyear := (n1 =? 3) && (negb (n4 =? 24) || (n100 =? 3)) in
    let month := Z.shiftr (n + 50) 5 in
    let preceding :=
      table DAYS_BEFORE_MONTH month
      + (if (2 <? month) && leapyear then 1 else 0) in
    if n <? preceding then
      let month := month - 1 in
      let preceding :=
        preceding
        - (table DAYS_IN_MONTH month
           + (if (month =? 2) && leapyear then 1 else 0)) in
      (year, month, n - preceding + 1)
    else (year, month, n - preceding + 1).

(** The inverse of [ymd2ord]. *)
Definition ord2ymd (n : Z) : Z * Z * Z :=
  let n := n - 1 in
  let n400 := n / DI400Y in
  let n := n mod DI400Y in
  let '(y, m, d) := ord2ymd_cycle n in
  (n400 * 400 + 1 + y, m, d).

Definition valid_date (year month day : Z) : bool :=
  (MINYEAR <=? year) && (year <=? MAXYEAR)
  && (1 <=? month) && (month <=? 12)
  && (1 <=? day) && (day <=? days_in_month year month).

End Calendar.

Record datetime : Type := mk_datetime {
  year : Z;
  month : Z;
  day : Z;
  hour : Z;
  minute : Z;
  second : Z;
  microsecond : Z
}.

Definition US_PER_SECOND : Z := 1000000.
Definition US_PER_DAY : Z := 86400 * US_PER_SECOND.

Definition fits_c_int (z : Z) : bool :=
  (-2147483648 <=? z) && (z <=? 2147483647).

Definition valid_time (h mi : Z) : bool :=
  (0 <=? h) && (h <=? 23) && (0 <=? mi) && (mi <=? 59).

(** [datetime(year, month, day, hour, minute)]: the arguments are read as C
    ints, then checked against the calendar. *)
Definition datetime_new (y m d h mi : Z) : result datetime :=
  if negb (fits_c_int y && fits_c_int m && fits_c_int d
           && fits_c_int h && fits_c_int mi)
  then Raise OverflowError
  else if negb (Calendar.valid_date y m d) then Raise ValueError
  else if negb (valid_time h mi) then Raise ValueError
  else Ok (mk_datetime y m d h mi 0 0).

(** The position of a datetime on the time axis, in microseconds since the
    midnight that starts ordinal day 0. *)
Definition datetime_micros (dt : datetime) : Z :=
  (Calendar.ymd2ord (year dt) (month dt) (day dt) * 86400
   + hour dt * 3600 + minute dt * 60 + second dt) * US_PER_SECOND
  + microsecond dt.

(** [timedelta(hours=h)], as a count of microseconds: the nearest
    microsecond, and at most 999999999 days either way. *)
Definition timedelta_hours (h : Q) : result Z :=
  let us := round_half_even (h * inject_Z (3600 * US_PER_SECOND)) in
  let days := us / US_PER_DAY in
  if (days <? -999999999) || (999999999 <? days) then Raise OverflowError
  else Ok us.

(** [dt - td]: the days, seconds and microseconds are renormalised and the
    day count is turned back into a date; a day outside
    [1 .. MAXORDINAL] raises [OverflowError]. *)
Definition datetime_sub (dt : datetime) (td : Z) : result datetime :=
  let total := datetime_micros dt - td in
  let days := total / US_PER_DAY in
  let rest := total mod US_PER_DAY in
  let secs := rest / US_PER_SECOND in
  if (0 <? days) && (days <=? Calendar.MAXORDINAL) then
    let '(y, m, d) := Calendar.ord2ymd days in
    Ok (mk_datetime y m d
          (secs / 3600) ((secs mod 3600) / 60) ((secs mod 3600) mod 60)
          (rest mod US_PER_SECOND))
  else Raise OverflowError.

(* ================================================================= *)
(** ** The ephemeris library *)

(** The bodies named by [swe.SUN] ... [swe.SATURN]. *)
Inductive body : Type :=
| SUN | MOON | MARS | MERCURY | JUPITER | VENUS | SATURN.

(** What the code asks of [swisseph]:
    - [swe_julday y m d h] is [swe.julday(y, m, d, h)];
    - [swe_calc_ut jd pid] is [swe.calc_ut(jd, pid)[0][0]], the ecliptic
      longitude of the body;
    - [swe_houses jd lat lon] is [swe.houses(jd, lat, lon)[0][0]]. *)
Class EphemerisProvider : Type := {
  swe_julday : Z -> Z -> Z -> Q -> Q;
  swe_calc_ut : Q -> body -> Q;
  swe_houses : Q -> Q -> Q -> Q
}.

Definition PLANETS : list (string * body) :=
  [("Sun", SUN); ("Moon", MOON); ("Mars", MARS); ("Mercury", MERCURY);
   ("Jupiter", JUPITER); ("Venus", VENUS); ("Saturn", SATURN)]%string.

Definition ZODIAC : list string :=
  ["Aries"; "Taurus"; "Gemini"; "Cancer"; "Leo"; "Virgo"; "Libra"; "Scorpio";
   "Sagittarius"; "Capricorn"; "Aquarius"; "Pisces"]%string.

(* ================================================================= *)
(** ** The birth input *)

(** The [birth] dictionary: [date] and [time] are text, [lat] and [lon] are
    numbers, and the [tz] entry may be absent. *)
Module Birth.
Record t : Type := mk {
  date : string;
  time : string;
  lat : Q;
  lon : Q;
  tz : option Q
}.
End Birth.

(** The dictionary returned by [compute_all]. *)
Module Chart.
Record t : Type := mk {
  julian_day : Q;
  planetary_longitudes : list (string * Q);
  ascendant : Q;
  houses : list (string * Z);
  moon_sign : string;
  moon_longitude : Q
}.
End Chart.

(* ================================================================= *)
(** ** [class AstroCalc] *)

Module AstroCalc.
Section WithProvider.
Context {E : EphemerisProvider}.

Record t : Type := mk {
  birth : Birth.t;
  julian_day : Q;
  lat : Q;
  lon : Q
}.

(** [[int(x) for x in s.split(sep)]] *)
Definition int_fields (sep : ascii) (s : string) : result (list Z) :=
  mapM int_of_str (str_split sep s).

(** [year, month, day = [int(x) for x in self.birth['date'].split('-')]] *)
Definition parse_date (b : Birth.t) : result (Z * Z * Z) :=
  ds <- int_fields "-" (Birth.date b) ;; unpack3 ds.

(** [hour, minute = [int(x) for x in self.birth['time'].split(':')]] *)
Definition parse_time (b : Birth.t) : result (Z * Z) :=
  ts <- int_fields ":" (Birth.time b) ;; unpack2 ts.

(** [float(self.birth.get('tz', 0.0))] *)
Definition tz_of (b : Birth.t) : Q :=
  match Birth.tz b with
  | Some x => x
  | None => 0
  end.

(** [dt_local] *)
Definition local_datetime (b : Birth.t) : result datetime :=
  '(year, month, day) <- parse_date b ;;
  '(hour, minute) <- parse_time b ;;
  datetime_new year month day hour minute.

(** [dt_ut = dt_local - timedelta(hours=tz)] *)
Definition ut_datetime (b : Birth.t) : result datetime :=
  dt_local <- local_datetime b ;;
  td <- timedelta_hours (tz_of b) ;;
  datetime_sub dt_local td.

(** [_compute_julian_day]: the values stored in [julian_day], [lat] and
    [lon]. *)
Definition _compute_julian_day (b : Birth.t) : result (Q * Q * Q) :=
  dt_ut <- ut_datetime b ;;
  let jd := swe_julday (year dt_ut) (month dt_ut) (day dt_ut)
              (inject_Z (hour dt_ut) + inject_Z (minute dt_ut) / 60) in
  Ok (jd, Birth.lat b, Birth.lon b).

(** [AstroCalc(birth)] *)
Definition init (b : Birth.t) : result t :=
  '(jd, la, lo) <- _compute_julian_day b ;;
  Ok (mk b jd la lo).

Definition planet_longitudes (self : t) : list (string * Q) :=
  map (fun '(name, pid) =>
         (name, float_mod (swe_calc_ut (julian_day self) pid) 360))
      PLANETS.

Definition ascendant (self : t) : Q :=
  float_mod (swe_houses (julian_day self) (lat self) (lon self)) 360.

Definition sign_index (moon_lon : Q) : Z :=
  int_of_float (float_floordiv moon_lon 30) mod 12.

Definition moon_sign (self : t) : result (string * Q) :=
  moon_lon <- dict_get (planet_longitudes self) "Moon" ;;
  sign <- list_get ZODIAC (sign_index moon_lon) ;;
  Ok (sign, moon_lon).

Definition house_of_planet (self : t) (planet_long : Q) : Z :=
  let asc := ascendant self in
  let diff := float_mod (planet_long - asc) 360 in
  int_of_float (float_floordiv diff 30) + 1.

Definition compute_all (self : t) : result Chart.t :=
  let longs := planet_longitudes self in
  let asc := ascendant self in
  let houses :=
    map (fun '(name, lon) => (name, house_of_planet self lon)) longs in
  '(moon_sign, moon_lon) <- moon_sign self ;;
  Ok (Chart.mk (julian_day self) longs asc houses moon_sign moon_lon).

End WithProvider.
End AstroCalc.

(* ================================================================= *)
(** ** [class ManglikRule] *)

Module ManglikRule.
Section WithProvider.
Context {E : EphemerisProvider}.

Definition TRIGGER_HOUSES : list Z := [1; 2; 4; 7; 8; 12].

(** [h in TRIGGER_HOUSES] *)
Definition is_trigger (h : Z) : bool :=
  existsb (Z.eqb h) TRIGGER_HOUSES.

Definition check (ac : AstroCalc.t) : result (list (string * pyval)) :=
  let longs := AstroCalc.planet_longitudes ac in
  mars_lon <- dict_get longs "Mars" ;;
  let mars_house := AstroCalc.house_of_planet ac mars_lon in
  let is_manglik := is_trigger mars_house in
  let conclusion := if is_manglik then "Manglik" else "Not Manglik" in
  let explanation :=
    ("Mars longitude = " ++ format_3f mars_lon ++ "째 => house "
       ++ str_of_int mars_house ++ ". Manglik houses: "
       ++ str_of_int_list (sorted TRIGGER_HOUSES) ++ ".")%string in
  Ok [("conclusion", VStr conclusion);
      ("explanation", VStr explanation);
      ("trigger", VBool is_manglik);
      ("mars_longitude", VFloat mars_lon);
      ("mars_house", VInt mars_house)]%string.

End WithProvider.
End ManglikRule.

(* ================================================================= *)
(** ** [class MoonSignRule] *)

Module MoonSignRule.
Section WithProvider.
Context {E : EphemerisProvider}.

Definition get (ac : AstroCalc.t) : result (list (string * pyval)) :=
  '(sign, moon_lon) <- AstroCalc.moon_sign ac ;;
  let explanation :=
    ("Moon longitude = " ++ format_3f moon_lon ++ "째 => Moon in "
       ++ sign ++ ".")%string in
  Ok [("moon_sign", VStr sign);
      ("moon_longitude", VFloat moon_lon);
      ("explanation", VStr explanation)]%string.

End WithProvider.
End MoonSignRule.

(* ================================================================= *)
(** ** [class VimshottariDasha] *)

Module VimshottariDasha.
Section WithProvider.
Context {E : EphemerisProvider}.

Definition SEQUENCE : list string :=
  ["Ketu"; "Venus"; "Sun"; "Moon"; "Mars"; "Rahu"; "Jupiter"; "Saturn";
   "Mercury"]%string.

Definition LENGTHS : list (string * Z) :=
  [("Ketu", 7); ("Venus", 20); ("Sun", 6); ("Moon", 10); ("Mars", 7);
   ("Rahu", 18); ("Jupiter", 16); ("Saturn", 19); ("Mercury", 17)]%string.

(** The locals of [current_dasha], as functions of the Moon longitude. *)
Definition nak_deg : Q := 360 / 27.

Definition nak_index (moon_lon : Q) : Z :=
  int_of_float (float_floordiv moon_lon nak_deg).

Definition deg_into_nak (moon_lon : Q) : Q :=
  moon_lon - inject_Z (nak_index moon_lon) * nak_deg.

Definition prop (moon_lon : Q) : Q := deg_into_nak moon_lon / nak_deg.

Definition rot (moon_lon : Q) : Z :=
  nak_index moon_lon mod Z.of_nat (List.length SEQUENCE).

(** [seq[rot:] + seq[:rot]] *)
Definition rotate (r : Z) (seq : list string) : list string :=
  skipn (Z.to_nat r) seq ++ firstn (Z.to_nat r) seq.

Definition first_lord (moon_lon : Q) : result string :=
  list_get (rotate (rot moon_lon) SEQUENCE) 0.

Definition remaining_years_first (moon_lon : Q) : result Q :=
  lord <- first_lord moon_lon ;;
  len <- dict_get LENGTHS lord ;;
  Ok (inject_Z len * (1 - prop moon_lon))%Q.

Definition explanation_text (moon_lon : Q) (lord : string) (remaining : Q)
  : string :=
  ("Moon longitude " ++ format_3f moon_lon ++ "째, nakshatra index "
     ++ str_of_int (nak_index moon_lon) ++ ", degree into nakshatra "
     ++ format_3f (deg_into_nak moon_lon) ++ "째. "
     ++ "Approx current Mahadasha lord (simplified) = " ++ lord
     ++ ", remaining approx = " ++ format_3f remaining ++ " years.")%string.

Definition current_dasha (ac : AstroCalc.t)
  : result (list (string * pyval)) :=
  moon_lon <- dict_get (AstroCalc.planet_longitudes ac) "Moon" ;;
  lord <- first_lord moon_lon ;;
  remaining <- remaining_years_first moon_lon ;;
  Ok [("mahadasha", VStr lord);
      ("explanation", VStr (explanation_text moon_lon lord remaining));
      ("moon_longitude", VFloat moon_lon)]%string.

End WithProvider.
End VimshottariDasha.

(* ================================================================= *)
(** ** A deterministic provider and sample inputs *)

Module Fixture.

(** A provider with fixed answers: the Julian Day of the proleptic
    Gregorian calendar, Mars at 215 degrees, the Moon at 0 degrees, every
    other body at -30 degrees, and a first cusp of 720 degrees. *)
Definition stub : EphemerisProvider := {|
  swe_julday := fun y m d h =>
    (inject_Z (Calendar.ymd2ord y m d) + (17214245 # 10) + h / 24)%Q;
  swe_calc_ut := fun _ pid =>
    match pid with
    | MARS => 215%Q
    | MOON => 0%Q
    | _ => (- (30))%Q
    end;
  swe_houses := fun _ _ _ => 720%Q
|}.

(** The same provider with Mars at 245 degrees. *)
Definition stub9 : EphemerisProvider := {|
  swe_julday := @swe_julday stub;
  swe_calc_ut := fun jd pid =>
    match pid with
    | MARS => 245%Q
    | _ => @swe_calc_ut stub jd pid
    end;
  swe_houses := @swe_houses stub
|}.

(** The birth input of the [__main__] block of [astro_calc.py]. *)
Definition birth : Birth.t :=
  Birth.mk "2006-10-12" "20:27" (286139 # 10000) (77209 # 1000)
    (Some (11 # 2)).

Definition birth_no_tz : Birth.t :=
  Birth.mk "2006-10-12" "20:27" (286139 # 10000) (77209 # 1000) None.

(** The first minute of the calendar, east of Greenwich. *)
Definition birth_year1 : Birth.t :=
  Birth.mk "0001-01-01" "00:00" (286139 # 10000) (77209 # 1000)
    (Some (11 # 2)).

Definition birth_month13 : Birth.t :=
  Birth.mk "2006-13-12" "20:27" (286139 # 10000) (77209 # 1000)
    (Some (11 # 2)).

Definition birth_feb30 : Birth.t :=
  Birth.mk "2006-02-30" "20:27" (286139 # 10000) (77209 # 1000)
    (Some (11 # 2)).

Definition birth_bad_time : Birth.t :=
  Birth.mk "2006-10-12" "8pm" (286139 # 10000) (77209 # 1000)
    (Some (11 # 2)).

(** The instance the constructor builds from [birth] with [stub]. *)
Definition ac : AstroCalc.t :=
  AstroCalc.mk birth (35337904170 # 14400) (286139 # 10000) (77209 # 1000).

End Fixture.

(* ================================================================= *)
(** ** Predicates and checkers used in the statements *)

(** A date of the proleptic Gregorian calendar, in any year from 1 on. *)
Definition valid_ymd (y m d : Z) : Prop :=
  1 <= y /\ 1 <= m <= 12 /\ 1 <= d <= Calendar.days_in_month y m.

Definition valid_datetime (dt : datetime) : Prop :=
  Calendar.valid_date (year dt) (month dt) (day dt) = true
  /\ 0 <= hour dt <= 23 /\ 0 <= minute dt <= 59
  /\ 0 <= second dt <= 59 /\ 0 <= microsecond dt < US_PER_SECOND.

(** The day after [y]-[m]-[d]. *)
Definition tomorrow (y m d : Z) : Z * Z * Z :=
  if d <? Calendar.days_in_month y m then (y, m, d + 1)
  else if m <? 12 then (y, m + 1, 1)
  else (y + 1, 1, 1).

(** The instants [datetime] can hold: from 0001-01-01 00:00:00 up to, not
    including, the midnight that ends 9999-12-31. *)
Definition representable (t : Z) : Prop :=
  US_PER_DAY <= t < (Calendar.MAXORDINAL + 1) * US_PER_DAY.

(** [f] holds on [z], [z + 1], ..., [z + n - 1]. *)
Fixpoint forall_range (f : Z -> bool) (n : nat) (z : Z) : bool :=
  match n with
  | O => true
  | S k => if f z then forall_range f k (z + 1) else false
  end.

Definition triple_eqb (a b : Z * Z * Z) : bool :=
  let '(a1, a2, a3) := a in
  let '(b1, b2, b3) := b in
  (a1 =? b1) && (a2 =? b2) && (a3 =? b3).

(** Day [r] of a 400-year cycle is turned into a date whose ordinal is
    [r + 1]; the last year of the cycle starts on day 145731. *)
Definition cycle_day_ok (r : Z) : bool :=
  let '(y, m, d) := Calendar.ord2ymd_cycle r in
  (0 <=? y) && (y <=? 399) && (1 <=? m) && (m <=? 12)
  && (1 <=? d) && (d <=? Calendar.days_in_month (y + 1) m)
  && (Calendar.ymd2ord (y + 1) m d =? r + 1)
  && ((y <? 399) || (145731 <=? r)).

(** The date [y]-[m]-[d] of the first cycle is found again from its
    ordinal. *)
Definition cycle_date_ok (y m d : Z) : bool :=
  if d <=? Calendar.days_in_month y m then
    triple_eqb (Calendar.ord2ymd_cycle (Calendar.ymd2ord y m d - 1))
      (y - 1, m, d)
    && (1 <=? Calendar.ymd2ord y m d)
    && (Calendar.ymd2ord y m d <=? Calendar.DI400Y)
    && ((400 <=? y) || (Calendar.ymd2ord y m d <=? 145731))
  else true.

Definition cycle_year_ok (y : Z) : bool :=
  forall_range (fun m => forall_range (cycle_date_ok y m) (Z.to_nat 31) 1)
    (Z.to_nat 12) 1.

(** The two providers answer alike. *)
Definition same_answers (E1 E2 : EphemerisProvider) : Prop :=
  (forall y m d h, @swe_julday E1 y m d h = @swe_julday E2 y m d h)
  /\ (forall jd pid, @swe_calc_ut E1 jd pid = @swe_calc_ut E2 jd pid)
  /\ (forall jd la lo, @swe_houses E1 jd la lo = @swe_houses E2 jd la lo).

(** One run of the program: the chart, then the three rules. *)
Definition run {E : EphemerisProvider} (b : Birth.t)
  : result (Chart.t * list (string * pyval) * list (string * pyval)
            * list (string * pyval)) :=
  ac <- AstroCalc.init b ;;
  chart <- AstroCalc.compute_all ac ;;
  manglik <- ManglikRule.check ac ;;
  moon <- MoonSignRule.get ac ;;
  dasha <- VimshottariDasha.current_dasha ac ;;
  Ok (chart, manglik, moon, dasha).

(* ================================================================= *)
(** ** Text operations of [app.py] *)

(** [c.lower()] on an ASCII character. *)
Definition lower_char (c : ascii) : ascii :=
  let n := N_of_ascii c in
  if ((65 <=? n) && (n <=? 90))%N then ascii_of_N (n + 32) else c.

(** [s.lower()] on ASCII text. *)
Fixpoint lower (s : string) : string :=
  match s with
  | EmptyString => EmptyString
  | String c s' => String (lower_char c) (lower s')
  end.

(** [s.replace(a, b)] for one-character [a] and [b]. *)
Fixpoint replace_char (a b : ascii) (s : string) : string :=
  match s with
  | EmptyString => EmptyString
  | String c s' =>
      String (if Ascii.eqb c a then b else c) (replace_char a b s')
  end.

(** [s.split()]: the maximal runs of characters that are not white
    space. *)
Fixpoint split_ws (s : string) : list string :=
  match s with
  | EmptyString => []
  | String c s' =>
      if is_space c then split_ws s'
      else match s' with
           | EmptyString => [String c EmptyString]
           | String c' _ =>
               if is_space c' then String c EmptyString :: split_ws s'
               else match split_ws s' with
                    | w :: ws => String c w :: ws
                    | [] => [String c EmptyString]
                    end
           end
  end.

(** [sub in s] on strings. *)
Fixpoint str_contains (sub s : string) : bool :=
  match s with
  | EmptyString => String.prefix sub EmptyString
  | String _ s' => String.prefix sub s || str_contains sub s'
  end.

(** [any(k in q for k in keys)] *)
Definition any_in (keys : list string) (q : string) : bool :=
  existsb (fun k => str_contains k q) keys.

(** [c] occurs in [s]. *)
Fixpoint has_char (c : ascii) (s : string) : bool :=
  match s with
  | EmptyString => false
  | String c' s' => Ascii.eqb c' c || has_char c s'
  end.

(** The number of occurrences of [c] in [s]. *)
Fixpoint count_char (c : ascii) (s : string) : nat :=
  match s with
  | EmptyString => O
  | String c' s' => ((if Ascii.eqb c' c then 1 else 0) + count_char c s')%nat
  end.

Fixpoint all_space (s : string) : bool :=
  match s with
  | EmptyString => true
  | String c s' => is_space c && all_space s'
  end.

(* ================================================================= *)
(** ** [PLACE_DICT] and [lookup_place] *)

Module Place.
Record t : Type := mk {
  lat : Q;
  lon : Q
}.
End Place.

Definition PLACE_DICT : list (string * Place.t) :=
  [("delhi", Place.mk (287041 # 10000) (771025 # 10000));
   ("new delhi", Place.mk (286139 # 10000) (77209 # 1000));
   ("kolkata", Place.mk (225726 # 10000) (883639 # 10000));
   ("mumbai", Place.mk (19076 # 1000) (728777 # 10000));
   ("chennai", Place.mk (130827 # 10000) (802707 # 10000));
   ("bangalore", Place.mk (129716 # 10000) (775946 # 10000));
   ("hyderabad", Place.mk (17385 # 1000) (784867 # 10000));
   ("jaipur", Place.mk (269124 # 10000) (757873 # 10000));
   ("lucknow", Place.mk (268467 # 10000) (809462 # 10000));
   ("kanpur", Place.mk (264499 # 10000) (803319 # 10000));
   ("punjab", Place.mk (311471 # 10000) (753412 # 10000));
   ("chandigarh", Place.mk (307333 # 10000) (767794 # 10000));
   ("agra", Place.mk (271767 # 10000) (780081 # 10000));
   ("varanasi", Place.mk (253176 # 10000) (829739 # 10000));
   ("ahmedabad", Place.mk (230225 # 10000) (725714 # 10000));
   ("kochi", Place.mk (99312 # 10000) (762673 # 10000));
   ("patna", Place.mk (255941 # 10000) (851376 # 10000));
   ("gurgaon", Place.mk (284595 # 10000) (770266 # 10000));
   ("noida", Place.mk (285355 # 10000) (77391 # 1000));
   ("person a", Place.mk (286139 # 10000) (77209 # 1000));
   ("person b", Place.mk (287041 # 10000) (771025 # 10000));
   ("person c", Place.mk (311471 # 10000) (753412 # 10000));
   ("rajasthan", Place.mk (270238 # 10000) (742179 # 10000));
   ("madhya pradesh", Place.mk (229734 # 10000) (786569 # 10000));
   ("uttar pradesh", Place.mk (268467 # 10000) (809462 # 10000));
   ("bengal", Place.mk (229786 # 10000) (877478 # 10000))].

(** The loop of [lookup_place]: the entry of the first token that is a
    key. *)
Fixpoint first_known (tokens : list string) : option Place.t :=
  match tokens with
  | [] => None
  | token :: rest =>
      match dict_lookup token PLACE_DICT with
      | Some p => Some p
      | None => first_known rest
      end
  end.

(** The key and the tokens [lookup_place] derives from a text. *)
Definition place_key (place_text : string) : string :=
  lower (strip place_text).

Definition place_tokens (key : string) : list string :=
  split_ws (replace_char "," " " key).

(** [lookup_place(place_text)]; [None] stands for Python's [None], as an
    argument and as the result. *)
Definition lookup_place (place_text : option string) : option Place.t :=
  match place_text with
  | None => None
  | Some EmptyString => None
  | Some text =>
      let key := place_key text in
      match dict_lookup key PLACE_DICT with
      | Some p => Some p
      | None => first_known (place_tokens key)
      end
  end.

(** The result of [lookup_place] for a text with the key [key]. *)
Definition key_lookup (key : string) : option Place.t :=
  match dict_lookup key PLACE_DICT with
  | Some p => Some p
  | None => first_known (place_tokens key)
  end.

(* ================================================================= *)
(** ** [answer_query] *)

(** The values handed to [json.dumps]. *)
#[warnings="-register-all"]
Inductive jval : Type :=
| JStr (s : string)
| JFloat (q : Q)
| JInt (z : Z)
| JBool (b : bool)
| JList (l : list jval)
| JDict (d : list (string * jval)).

Definition jval_of (v : pyval) : jval :=
  match v with
  | VStr s => JStr s
  | VFloat q => JFloat q
  | VInt z => JInt z
  | VBool b => JBool b
  end.

Definition jval_of_place (p : Place.t) : jval :=
  JDict [("lat", JFloat (Place.lat p)); ("lon", JFloat (Place.lon p))].

Definition jval_of_chart (c : Chart.t) : jval :=
  JDict
    [("julian_day", JFloat (Chart.julian_day c));
     ("planetary_longitudes",
      JDict (map (fun '(name, lon) => (name, JFloat lon))
               (Chart.planetary_longitudes c)));
     ("ascendant", JFloat (Chart.ascendant c));
     ("houses",
      JDict (map (fun '(name, h) => (name, JInt h)) (Chart.houses c)));
     ("moon_sign", JStr (Chart.moon_sign c));
     ("moon_longitude", JFloat (Chart.moon_longitude c))].

(** What [app.py] asks of Python itself:
    - [float_of_str s] is [float(s)] on a string;
    - [json_dumps v] is [json.dumps(v, indent=2)]. *)
Class Builtins : Type := {
  float_of_str : string -> result Q;
  json_dumps : jval -> string
}.

Definition MANGLIK_KEYS : list string :=
  ["manglik"; "mangal"; "manglik dosha"].

Definition MOON_KEYS : list string := ["moon sign"; "moon"; "chandra"].

Definition DASHA_KEYS : list string := ["dasha"; "mahadasha"; "vimshottari"].

Definition CHART_KEYS : list string :=
  ["chart"; "houses"; "house"; "full chart"; "show chart"].

Definition PLACE_NOT_FOUND : string :=
  "Place not found in offline database. Please provide a nearby city (e.g., Delhi, Mumbai).".

(** The character [chr(34)]. *)
Definition DQUOTE : string := String (ascii_of_N 34) EmptyString.

Definition NO_INTENT : string :=
  ("No specific intent detected. Try asking: "
     ++ DQUOTE ++ "Am I Manglik?" ++ DQUOTE ++ ", "
     ++ DQUOTE ++ "What is my Moon sign?" ++ DQUOTE ++ ", "
     ++ DQUOTE ++ "Which Mahadasha am I in?" ++ DQUOTE)%string.

Module App.
Section WithProviders.
Context {E : EphemerisProvider} {B : Builtins}.

(** The entry appended for the Manglik intent. *)
Definition manglik_answer (calc : AstroCalc.t) : result jval :=
  res <- ManglikRule.check calc ;;
  conclusion <- dict_get res "conclusion" ;;
  explanation <- dict_get res "explanation" ;;
  mars_longitude <- dict_get res "mars_longitude" ;;
  mars_house <- dict_get res "mars_house" ;;
  Ok (JDict
        [("intent", JStr "manglik");
         ("answer", jval_of conclusion);
         ("explanation", jval_of explanation);
         ("data_used",
          JDict [("mars_longitude", jval_of mars_longitude);
                 ("mars_house", jval_of mars_house)]);
         ("rule", JStr "Mars in houses 1,2,4,7,8,12 from Ascendant")]).

(** The entry appended for the Moon-sign intent. *)
Definition moon_sign_answer (calc : AstroCalc.t) : result jval :=
  res <- MoonSignRule.get calc ;;
  moon_sign <- dict_get res "moon_sign" ;;
  explanation <- dict_get res "explanation" ;;
  moon_longitude <- dict_get res "moon_longitude" ;;
  Ok (JDict
        [("intent", JStr "moon_sign");
         ("answer", jval_of moon_sign);
         ("explanation", jval_of explanation);
         ("data_used", JDict [("moon_longitude", jval_of moon_longitude)]);
         ("rule", JStr "Moon sign = zodiac sign containing Moon longitude")]).

(** The entry appended for the dasha intent. *)
Definition dasha_answer (calc : AstroCalc.t) : result jval :=
  res <- VimshottariDasha.current_dasha calc ;;
  mahadasha <- dict_get res "mahadasha" ;;
  explanation <- dict_get res "explanation" ;;
  moon_longitude <- dict_get res "moon_longitude" ;;
  Ok (JDict
        [("intent", JStr "dasha");
         ("answer", jval_of mahadasha);
         ("explanation", jval_of explanation);
         ("data_used", JDict [("moon_longitude", jval_of moon_longitude)]);
         ("rule",
          JStr "Simplified Vimshottari based on Moon nakshatra index")]).

Definition chart_answer (computed : Chart.t) : jval :=
  JDict
    [("intent", JStr "chart");
     ("answer", JStr "Computed chart attached");
     ("explanation", JStr "See computed data");
     ("data_used", jval_of_chart computed)].

Definition computed_answer (computed : Chart.t) : jval :=
  JDict
    [("intent", JStr "computed");
     ("answer", JStr "Computed chart attached");
     ("explanation", JStr NO_INTENT);
     ("data_used", jval_of_chart computed)].

(** [if any(k in q for k in keys): answers.append(...)] *)
Definition append_if (keys : list string) (q : string)
  (entry : result jval) (answers : list jval) : result (list jval) :=
  if any_in keys q then a <- entry ;; Ok (answers ++ [a]) else Ok answers.

(** The list [answers] at the end of [answer_query]. *)
Definition collect_answers (calc : AstroCalc.t) (computed : Chart.t)
  (q : string) : result (list jval) :=
  answers <- append_if MANGLIK_KEYS q (manglik_answer calc) [] ;;
  answers <- append_if MOON_KEYS q (moon_sign_answer calc) answers ;;
  answers <- append_if DASHA_KEYS q (dasha_answer calc) answers ;;
  answers <- append_if CHART_KEYS q (Ok (chart_answer computed)) answers ;;
  match answers with
  | [] => Ok [computed_answer computed]
  | _ => Ok answers
  end.

(** [question or ''] *)
Definition or_empty (question : option string) : string :=
  match question with
  | Some s => s
  | None => EmptyString
  end.

(** The value [answer_query] hands to [json.dumps]: the error object when
    the place is unknown, the response otherwise.  [dob], [time] and [tz]
    are the texts typed by the user. *)
Definition answer_query_value (dob time : string) (place : option string)
  (tz : string) (question : option string) : result jval :=
  match lookup_place place with
  | None => Ok (JDict [("error", JStr PLACE_NOT_FOUND)])
  | Some place_info =>
      tzf <- float_of_str tz ;;
      let birth :=
        Birth.mk (strip dob) (strip time) (Place.lat place_info)
          (Place.lon place_info) (Some tzf) in
      calc <- AstroCalc.init birth ;;
      computed <- AstroCalc.compute_all calc ;;
      let q := lower (or_empty question) in
      answers <- collect_answers calc computed q ;;
      Ok (JDict [("place_used", jval_of_place place_info);
                 ("computed", jval_of_chart computed);
                 ("answers", JList answers)])
  end.

(** [answer_query(dob, time, place, tz, question)] *)
Definition answer_query (dob time : string) (place : option string)
  (tz : string) (question : option string) : result string :=
  v <- answer_query_value dob time place tz question ;;
  Ok (json_dumps v).

End WithProviders.
End App.

(** The intent of an entry of [answers]. *)
Definition intent_of (a : jval) : option string :=
  match a with
  | JDict d =>
      match dict_lookup "intent" d with
      | Some (JStr s) => Some s
      | _ => None
      end
  | _ => None
  end.

(** The intents [answer_query] answers, from four single tests on the
    lower-cased question. *)
Definition intents_of_question (q : string) : list string :=
  let found :=
    (if str_contains "manglik" q || str_contains "mangal" q
     then ["manglik"] else [])
    ++ (if str_contains "moon" q || str_contains "chandra" q
        then ["moon_sign"] else [])
    ++ (if str_contains "dasha" q || str_contains "vimshottari" q
        then ["dasha"] else [])
    ++ (if str_contains "chart" q || str_contains "house" q
        then ["chart"] else []) in
  match found with
  | [] => ["computed"]
  | _ => found
  end.

Module AppFixture.

(** [float] on the texts used below. *)
Definition builtins : Builtins := {|
  float_of_str := fun s =>
    if String.eqb s "5.5" then Ok (11 # 2)
    else if String.eqb s "0" then Ok 0%Q
    else Raise ValueError;
  json_dumps := fun _ => EmptyString
|}.

(** The sample input with an offset of 5 hours, 30 minutes and 36
    seconds. *)
Definition birth_odd_tz : Birth.t :=
  Birth.mk "2006-10-12" "20:27" (286139 # 10000) (77209 # 1000)
    (Some (551 # 100)).

(** The sample input with the date written with slashes. *)
Definition birth_slashes : Birth.t :=
  Birth.mk "2006/10/12" "20:27" (286139 # 10000) (77209 # 1000)
    (Some (11 # 2)).

End AppFixture.

(* ================================================================= *)
(** * Properties *)

(* ================================================================= *)
(** ** Floor, modulo and truncation on rationals *)

Lemma int_of_float_inject_Z (z : Z) : int_of_float (inject_Z z) = z.
Proof. unfold int_of_float; simpl. apply Z.quot_1_r. Qed.

Lemma int_floordiv (x y : Q) : int_of_float (float_floordiv x y) = Qfloor (x / y).
Proof. apply int_of_float_inject_Z. Qed.

(** [Qfloor q] is the integer [k] with [k <= q < k + 1]. *)
Lemma Qfloor_eq_iff (q : Q) (k : Z) :
  Qfloor q = k <-> (inject_Z k <= q /\ q < inject_Z (k + 1))%Q.
Proof.
  split.
  - intros <-. split; [apply Qfloor_le | apply Qlt_floor].
  - intros [Hlo Hhi].
    assert (H1 : k <= Qfloor q).
    { rewrite <- (Qfloor_Z k). now apply Qfloor_resp_le. }
    assert (H2 : Qfloor q < k + 1).
    { rewrite Zlt_Qlt. eapply Qle_lt_trans; [apply Qfloor_le | exact Hhi]. }
    lia.
Qed.

Lemma Qfloor_range (q : Q) (a b : Z) :
  (inject_Z a <= q)%Q -> (q < inject_Z b)%Q -> a <= Qfloor q < b.
Proof.
  intros Hlo Hhi. split.
  - rewrite <- (Qfloor_Z a). now apply Qfloor_resp_le.
  - rewrite Zlt_Qlt. eapply Qle_lt_trans; [apply Qfloor_le | exact Hhi].
Qed.

(** Division by a positive constant, turned into multiplications. *)
Lemma Qdiv_bounds (x y lo hi : Q) :
  (0 < y)%Q -> (lo * y <= x)%Q -> (x < hi * y)%Q ->
  (lo <= x / y /\ x / y < hi)%Q.
Proof.
  intros Hy Hlo Hhi. split.
  - now apply Qle_shift_div_l.
  - now apply Qlt_shift_div_r.
Qed.

Lemma Qdiv_bounds_inv (x y lo hi : Q) :
  (0 < y)%Q -> (lo <= x / y)%Q -> (x / y < hi)%Q ->
  (lo * y <= x /\ x < hi * y)%Q.
Proof.
  intros Hy Hlo Hhi.
  assert (Hne : ~ y == 0) by (intros H; rewrite H in Hy; discriminate).
  assert (Hx : x / y * y == x).
  { unfold Qdiv. rewrite <- Qmult_assoc, (Qmult_comm (/ y)), Qmult_inv_r by exact Hne.
    apply Qmult_1_r. }
  split.
  - rewrite <- Hx. apply Qmult_le_compat_r; [exact Hlo | now apply Qlt_le_weak].
  - rewrite <- Hx at 1. now apply Qmult_lt_compat_r.
Qed.

(** [x % y] lies in [[0, y)] and differs from [x] by a multiple of [y]. *)
Lemma float_mod_bounds (x y : Q) :
  (0 < y)%Q -> (0 <= float_mod x y /\ float_mod x y < y)%Q.
Proof.
  intros Hy. unfold float_mod.
  destruct (Qdiv_bounds_inv x y (inject_Z (Qfloor (x / y)))
              (inject_Z (Qfloor (x / y) + 1)) Hy
              (Qfloor_le _) (Qlt_floor _)) as [Hlo Hhi].
  rewrite inject_Z_plus in Hhi.
  set (f := inject_Z (Qfloor (x / y))) in *.
  assert (E1 : (f + inject_Z 1) * y == f * y + y) by ring.
  rewrite E1 in Hhi.
  assert (E2 : y * f == f * y) by ring.
  rewrite E2. split; lra.
Qed.

Lemma float_mod_congruent (x y : Q) :
  exists k : Z, float_mod x y == x - inject_Z k * y.
Proof.
  exists (Qfloor (x / y)). unfold float_mod. ring.
Qed.

(** A value already in [[0, y)] is left alone. *)
Lemma float_mod_small (x y : Q) :
  (0 <= x)%Q -> (x < y)%Q -> float_mod x y == x.
Proof.
  intros Hlo Hhi. unfold float_mod.
  assert (Hy : (0 < y)%Q) by lra.
  assert (Hf : Qfloor (x / y) = 0).
  { apply Qfloor_eq_iff.
    change (inject_Z 0) with 0%Q. change (inject_Z (0 + 1)) with 1%Q.
    apply Qdiv_bounds; [exact Hy | lra | lra]. }
  rewrite Hf. ring.
Qed.

Lemma float_mod_comp (x x' y : Q) : x == x' -> float_mod x y == float_mod x' y.
Proof.
  intros H. unfold float_mod.
  assert (Hf : Qfloor (x / y) = Qfloor (x' / y)).
  { apply Qfloor_comp. now rewrite H. }
  rewrite Hf, H. reflexivity.
Qed.

(* ================================================================= *)
(** ** The calendar: ordinals and dates *)

Import Calendar.

Lemma forall_range_nat (f : Z -> bool) (n : nat) :
  forall z, forall_range f n z = true ->
  forall x, z <= x < z + Z.of_nat n -> f x = true.
Proof.
  induction n as [| k IH]; intros z H x Hx.
  - lia.
  - cbn [forall_range] in H. destruct (f z) eqn:Hz; [| discriminate].
    destruct (Z.eq_dec x z) as [-> | Hne]; [exact Hz |].
    apply (IH (z + 1) H). lia.
Qed.

Lemma forall_range_spec (f : Z -> bool) (lo len x : Z) :
  forall_range f (Z.to_nat len) lo = true ->
  lo <= x < lo + len -> f x = true.
Proof.
  intros H Hx. apply (forall_range_nat f (Z.to_nat len) lo H). lia.
Qed.

(** The two checks, run over one whole cycle of 400 years. *)
Lemma cycle_days_checked :
  forall_range cycle_day_ok (Z.to_nat DI400Y) 0 = true.
Proof. vm_cast_no_check (eq_refl true). Qed.

Lemma cycle_dates_checked :
  forall_range cycle_year_ok (Z.to_nat 400) 1 = true.
Proof. vm_cast_no_check (eq_refl true). Qed.

Lemma is_leap_shift (y k : Z) : is_leap (y + 400 * k) = is_leap y.
Proof.
  unfold is_leap.
  replace (y + 400 * k) with (y + (100 * k) * 4) at 1 by lia.
  replace (y + 400 * k) with (y + (4 * k) * 100) at 1 by lia.
  replace (y + 400 * k) with (y + k * 400) by lia.
  now rewrite !Z.mod_add by lia.
Qed.

Lemma days_before_year_shift (y k : Z) :
  days_before_year (y + 400 * k) = days_before_year y + DI400Y * k.
Proof.
  unfold days_before_year, DI400Y. cbv zeta.
  replace ((y + 400 * k - 1) / 4) with ((y - 1 + (100 * k) * 4) / 4) by (f_equal; lia).
  replace ((y + 400 * k - 1) / 100) with ((y - 1 + (4 * k) * 100) / 100) by (f_equal; lia).
  replace ((y + 400 * k - 1) / 400) with ((y - 1 + k * 400) / 400) by (f_equal; lia).
  rewrite !Z.div_add by lia. lia.
Qed.

Lemma days_in_month_shift (y k m : Z) :
  days_in_month (y + 400 * k) m = days_in_month y m.
Proof. unfold days_in_month. now rewrite is_leap_shift. Qed.

Lemma ymd2ord_shift (y k m d : Z) :
  ymd2ord (y + 400 * k) m d = ymd2ord y m d + DI400Y * k.
Proof.
  unfold ymd2ord, days_before_month.
  rewrite days_before_year_shift, is_leap_shift. lia.
Qed.

Lemma ord2ymd_shift (r k : Z) :
  0 <= r < DI400Y ->
  ord2ymd (DI400Y * k + r + 1) =
  let '(y, m, d) := ord2ymd_cycle r in (400 * k + 1 + y, m, d).
Proof.
  intros Hr. unfold ord2ymd.
  replace (DI400Y * k + r + 1 - 1) with (r + k * DI400Y) by lia.
  rewrite Z.div_add, Z.mod_add by (unfold DI400Y; lia).
  rewrite Z.div_small, Z.mod_small by exact Hr.
  destruct (ord2ymd_cycle r) as [[y m] d]. f_equal. f_equal. lia.
Qed.

Lemma valid_date_iff (y m d : Z) :
  valid_date y m d = true <-> valid_ymd y m d /\ y <= MAXYEAR.
Proof.
  unfold valid_date, valid_ymd, MINYEAR, MAXYEAR.
  rewrite !andb_true_iff, !Z.leb_le. lia.
Qed.

Lemma month_cases (m : Z) :
  1 <= m <= 12 ->
  m = 1 \/ m = 2 \/ m = 3 \/ m = 4 \/ m = 5 \/ m = 6 \/ m = 7
  \/ m = 8 \/ m = 9 \/ m = 10 \/ m = 11 \/ m = 12.
Proof. lia. Qed.

Lemma days_in_month_le_31 (y m : Z) : 1 <= m <= 12 -> days_in_month y m <= 31.
Proof.
  intros Hm. unfold days_in_month.
  destruct ((m =? 2) && is_leap y); [lia |].
  destruct (month_cases m Hm) as [-> | [-> | [-> | [-> | [-> | [-> | [-> | [-> | [-> | [-> | [-> | ->]]]]]]]]]]];
    cbv; discriminate.
Qed.

Lemma cycle_day_facts (r : Z) :
  0 <= r < DI400Y ->
  let '(y, m, d) := ord2ymd_cycle r in
  0 <= y <= 399 /\ 1 <= m <= 12 /\ 1 <= d <= days_in_month (y + 1) m
  /\ ymd2ord (y + 1) m d = r + 1 /\ (y = 399 -> 145731 <= r).
Proof.
  intros Hr.
  assert (H : cycle_day_ok r = true).
  { apply (forall_range_spec _ 0 DI400Y r cycle_days_checked). lia. }
  unfold cycle_day_ok in H.
  destruct (ord2ymd_cycle r) as [[y m] d].
  rewrite !andb_true_iff, orb_true_iff, !Z.leb_le, Z.eqb_eq, Z.ltb_lt in H. lia.
Qed.

Lemma cycle_date_facts (y m d : Z) :
  1 <= y <= 400 -> 1 <= m <= 12 -> 1 <= d <= days_in_month y m ->
  ord2ymd_cycle (ymd2ord y m d - 1) = (y - 1, m, d)
  /\ 1 <= ymd2ord y m d <= DI400Y
  /\ (y <= 399 -> ymd2ord y m d <= 145731).
Proof.
  intros Hy Hm Hd.
  pose proof (days_in_month_le_31 y m Hm) as H31.
  assert (H : cycle_date_ok y m d = true).
  { apply (forall_range_spec _ 1 31 d); [| lia].
    apply (forall_range_spec
             (fun m => forall_range (cycle_date_ok y m) (Z.to_nat 31) 1)
             1 12 m); [| lia].
    apply (forall_range_spec cycle_year_ok 1 400 y cycle_dates_checked). lia. }
  unfold cycle_date_ok in H.
  replace (d <=? days_in_month y m) with true in H
    by (symmetry; apply Z.leb_le; lia).
  unfold triple_eqb in H.
  destruct (ord2ymd_cycle (ymd2ord y m d - 1)) as [[y' m'] d'].
  rewrite !andb_true_iff, orb_true_iff, !Z.leb_le, !Z.eqb_eq in H.
  destruct H as [[[[[-> ->] ->] Hlo] Hhi] Hor].
  split; [reflexivity |]. unfold DI400Y in *. lia.
Qed.

(** Every day number at or after 1 is the ordinal of a date of the
    calendar, the one [ord2ymd] returns. *)
Lemma ymd2ord_ord2ymd (n : Z) :
  1 <= n ->
  let '(y, m, d) := ord2ymd n in
  valid_ymd y m d /\ ymd2ord y m d = n /\ (n <= MAXORDINAL -> y <= MAXYEAR).
Proof.
  intros Hn.
  set (k := (n - 1) / DI400Y). set (r := (n - 1) mod DI400Y).
  assert (Hdm : n - 1 = DI400Y * k + r) by (apply Z.div_mod; discriminate).
  assert (Hr : 0 <= r < DI400Y) by (apply Z.mod_pos_bound; reflexivity).
  assert (Hk : 0 <= k) by (apply Z.div_pos; [lia | reflexivity]).
  assert (Heq : ord2ymd n = ord2ymd (DI400Y * k + r + 1)) by (f_equal; lia).
  rewrite Heq, (ord2ymd_shift r k Hr).
  pose proof (cycle_day_facts r Hr) as Hc.
  destruct (ord2ymd_cycle r) as [[y m] d].
  destruct Hc as (Hy & Hm & Hd & Hord & Hlast).
  replace (400 * k + 1 + y) with (y + 1 + 400 * k) by lia.
  unfold valid_ymd. rewrite days_in_month_shift, ymd2ord_shift, Hord.
  repeat split; try lia.
  intros Hmax. unfold MAXORDINAL, MAXYEAR, DI400Y in *.
  assert (k <= 24) by lia. lia.
Qed.

(** [ord2ymd] undoes [ymd2ord] on the dates of the calendar. *)
Lemma ord2ymd_ymd2ord (y m d : Z) :
  valid_ymd y m d ->
  ord2ymd (ymd2ord y m d) = (y, m, d)
  /\ 1 <= ymd2ord y m d /\ (y <= MAXYEAR -> ymd2ord y m d <= MAXORDINAL).
Proof.
  intros (Hy & Hm & Hd).
  set (k := (y - 1) / 400). set (y0 := (y - 1) mod 400 + 1).
  assert (Hdm : y - 1 = 400 * k + (y - 1) mod 400) by (apply Z.div_mod; discriminate).
  assert (Hr : 0 <= (y - 1) mod 400 < 400) by (apply Z.mod_pos_bound; reflexivity).
  assert (Hk : 0 <= k) by (apply Z.div_pos; [lia | reflexivity]).
  assert (Hyk : y = y0 + 400 * k) by (unfold y0; lia).
  rewrite Hyk in Hd |- *. rewrite days_in_month_shift in Hd. rewrite ymd2ord_shift.
  assert (Hy0 : 1 <= y0 <= 400) by (unfold y0; lia).
  destruct (cycle_date_facts y0 m d Hy0 Hm Hd) as (Hc & Hrange & Hlast).
  split; [| split].
  - replace (ymd2ord y0 m d + DI400Y * k)
      with (DI400Y * k + (ymd2ord y0 m d - 1) + 1) by lia.
    rewrite ord2ymd_shift by lia. rewrite Hc. f_equal. f_equal. lia.
  - unfold DI400Y in *. lia.
  - unfold MAXYEAR, MAXORDINAL, DI400Y in *. intros Hmax.
    assert (Hk24 : k <= 24) by lia.
    destruct (Z.eq_dec k 24) as [Hk' | Hne]; [| lia].
    assert (Hy399 : y0 <= 399) by lia. specialize (Hlast Hy399). lia.
Qed.

(* ================================================================= *)
(** ** Datetime arithmetic *)

Lemma datetime_new_inv (y m d h mi : Z) (dt : datetime) :
  datetime_new y m d h mi = Ok dt ->
  dt = mk_datetime y m d h mi 0 0 /\ valid_datetime dt.
Proof.
  unfold datetime_new.
  destruct (negb _); [discriminate |].
  destruct (valid_date y m d) eqn:Hd; [| discriminate].
  destruct (valid_time h mi) eqn:Ht; [| discriminate].
  cbn [negb]. intros [= <-]. split; [reflexivity |].
  unfold valid_time in Ht.
  rewrite !andb_true_iff, !Z.leb_le in Ht.
  unfold valid_datetime, US_PER_SECOND; cbn. repeat split; try lia. exact Hd.
Qed.

Lemma datetime_sub_spec (dt : datetime) (td : Z) :
  let total := datetime_micros dt - td in
  (representable total ->
   exists dt', datetime_sub dt td = Ok dt'
               /\ valid_datetime dt' /\ datetime_micros dt' = total)
  /\ (~ representable total -> datetime_sub dt td = Raise OverflowError).
Proof.
  intros total. unfold datetime_sub. fold total.
  set (days := total / US_PER_DAY). set (rest := total mod US_PER_DAY).
  assert (Hdm : total = US_PER_DAY * days + rest) by (apply Z.div_mod; discriminate).
  assert (Hrest : 0 <= rest < US_PER_DAY) by (apply Z.mod_pos_bound; reflexivity).
  unfold representable. split.
  - intros Hrep.
    assert (Hdays : 1 <= days <= MAXORDINAL).
    { unfold US_PER_DAY, US_PER_SECOND, MAXORDINAL in *. lia. }
    replace ((0 <? days) && (days <=? MAXORDINAL)) with true
      by (symmetry; apply andb_true_iff; split; [apply Z.ltb_lt | apply Z.leb_le]; lia).
    pose proof (ymd2ord_ord2ymd days (proj1 Hdays)) as Hord.
    destruct (ord2ymd days) as [[y m] d].
    destruct Hord as (Hv & Hord & Hmax).
    eexists. split; [reflexivity |].
    set (secs := rest / US_PER_SECOND).
    assert (Hs : rest = US_PER_SECOND * secs + rest mod US_PER_SECOND)
      by (apply Z.div_mod; discriminate).
    assert (Hus : 0 <= rest mod US_PER_SECOND < US_PER_SECOND)
      by (apply Z.mod_pos_bound; reflexivity).
    assert (Hh : secs = 3600 * (secs / 3600) + secs mod 3600)
      by (apply Z.div_mod; discriminate).
    assert (Hh' : 0 <= secs mod 3600 < 3600) by (apply Z.mod_pos_bound; reflexivity).
    assert (Hm : secs mod 3600 = 60 * (secs mod 3600 / 60) + (secs mod 3600) mod 60)
      by (apply Z.div_mod; discriminate).
    assert (Hm' : 0 <= (secs mod 3600) mod 60 < 60) by (apply Z.mod_pos_bound; reflexivity).
    unfold valid_datetime, datetime_micros; cbn [year month day hour minute second microsecond].
    rewrite Hord.
    split; [| unfold US_PER_DAY, US_PER_SECOND in *; lia].
    split; [apply valid_date_iff; split; [exact Hv | apply Hmax; lia] |].
    unfold US_PER_DAY, US_PER_SECOND in *. lia.
  - intros Hrep.
    replace ((0 <? days) && (days <=? MAXORDINAL)) with false; [reflexivity |].
    symmetry. apply andb_false_iff.
    destruct (Z.ltb_spec 0 days) as [H0 | H0]; [| now left].
    right. apply Z.leb_gt.
    unfold US_PER_DAY, US_PER_SECOND, MAXORDINAL in *. lia.
Qed.

(** Subtracting nothing returns the same datetime. *)
Lemma datetime_sub_zero (dt : datetime) :
  valid_datetime dt -> datetime_sub dt 0 = Ok dt.
Proof.
  intros (Hd & Hh & Hm & Hs & Hu). destruct dt as [y m d h mi s us].
  cbn [year month day hour minute second microsecond] in *.
  apply valid_date_iff in Hd. destruct Hd as [Hv Hy].
  destruct (ord2ymd_ymd2ord y m d Hv) as (Hinv & Hlo & Hhi). specialize (Hhi Hy).
  unfold datetime_sub, datetime_micros.
  cbn [year month day hour minute second microsecond].
  set (n := ymd2ord y m d) in *.
  set (tod := (h * 3600 + mi * 60 + s) * US_PER_SECOND + us).
  replace ((n * 86400 + h * 3600 + mi * 60 + s) * US_PER_SECOND + us - 0)
    with (tod + n * US_PER_DAY) by (unfold tod, US_PER_DAY; lia).
  assert (Htod : 0 <= tod < US_PER_DAY)
    by (unfold tod, US_PER_DAY, US_PER_SECOND in *; lia).
  rewrite Z.div_add, Z.mod_add by discriminate.
  rewrite Z.div_small, Z.mod_small by exact Htod. cbn [Z.add].
  replace ((0 <? n) && (n <=? MAXORDINAL)) with true
    by (symmetry; apply andb_true_iff; split; [apply Z.ltb_lt | apply Z.leb_le]; lia).
  rewrite Hinv.
  assert (E1 : tod / US_PER_SECOND = h * 3600 + mi * 60 + s).
  { unfold tod. rewrite Z.div_add_l by discriminate. rewrite Z.div_small; lia. }
  assert (E2 : tod mod US_PER_SECOND = us).
  { unfold tod. rewrite Z.add_comm, Z.mod_add by discriminate. apply Z.mod_small; lia. }
  rewrite E1, E2.
  assert (E3 : (h * 3600 + mi * 60 + s) / 3600 = h).
  { replace (h * 3600 + mi * 60 + s) with (mi * 60 + s + h * 3600) by lia.
    rewrite Z.div_add by discriminate. rewrite Z.div_small; lia. }
  assert (E4 : (h * 3600 + mi * 60 + s) mod 3600 = mi * 60 + s).
  { replace (h * 3600 + mi * 60 + s) with (mi * 60 + s + h * 3600) by lia.
    rewrite Z.mod_add by discriminate. apply Z.mod_small; lia. }
  rewrite E3, E4.
  assert (E5 : (mi * 60 + s) / 60 = mi).
  { rewrite Z.add_comm, Z.div_add by discriminate. rewrite Z.div_small; lia. }
  assert (E6 : (mi * 60 + s) mod 60 = s).
  { rewrite Z.add_comm, Z.mod_add by discriminate. apply Z.mod_small; lia. }
  now rewrite E5, E6.
Qed.

Lemma timedelta_hours_inv (h : Q) (td : Z) :
  timedelta_hours h = Ok td ->
  td = round_half_even (h * inject_Z (3600 * US_PER_SECOND)).
Proof.
  unfold timedelta_hours. destruct (_ || _); [discriminate |]. now intros [= <-].
Qed.

Lemma timedelta_hours_zero : timedelta_hours 0 = Ok 0.
Proof. reflexivity. Qed.

(* ================================================================= *)
(** ** Lists and longitudes *)

Lemma small_cases (n i : Z) :
  0 <= i < n -> exists k : nat, (k < Z.to_nat n)%nat /\ i = Z.of_nat k.
Proof. intros H. exists (Z.to_nat i). lia. Qed.

Section Rules.
Context {E : EphemerisProvider}.

Lemma house_unfold (ac : AstroCalc.t) (L : Q) :
  AstroCalc.house_of_planet ac L
  = Qfloor (float_mod (L - AstroCalc.ascendant ac) 360 / 30) + 1.
Proof. unfold AstroCalc.house_of_planet. now rewrite int_floordiv. Qed.

Lemma ascendant_range (ac : AstroCalc.t) :
  (0 <= AstroCalc.ascendant ac /\ AstroCalc.ascendant ac < 360)%Q.
Proof. apply float_mod_bounds. reflexivity. Qed.

Lemma planet_longitudes_range (ac : AstroCalc.t) :
  Forall (fun kv : string * Q => (0 <= snd kv /\ snd kv < 360)%Q)
    (AstroCalc.planet_longitudes ac).
Proof.
  unfold AstroCalc.planet_longitudes. apply Forall_map, Forall_forall.
  intros [name pid] _. cbn [snd]. apply float_mod_bounds. reflexivity.
Qed.

Lemma moon_longitude_eq (ac : AstroCalc.t) :
  dict_get (AstroCalc.planet_longitudes ac) "Moon"
  = Ok (float_mod (swe_calc_ut (AstroCalc.julian_day ac) MOON) 360).
Proof. reflexivity. Qed.

Lemma mars_longitude_eq (ac : AstroCalc.t) :
  dict_get (AstroCalc.planet_longitudes ac) "Mars"
  = Ok (float_mod (swe_calc_ut (AstroCalc.julian_day ac) MARS) 360).
Proof. reflexivity. Qed.

Lemma dict_get_range (ac : AstroCalc.t) (name : string) (lon : Q) :
  dict_get (AstroCalc.planet_longitudes ac) name = Ok lon ->
  (0 <= lon /\ lon < 360)%Q.
Proof.
  unfold dict_get. intros H.
  destruct (dict_lookup name (AstroCalc.planet_longitudes ac)) as [v |] eqn:Hl;
    [| discriminate].
  injection H as ->.
  pose proof (planet_longitudes_range ac) as HF.
  induction (AstroCalc.planet_longitudes ac) as [| [k v] l IH]; [discriminate |].
  cbn [dict_lookup] in Hl. inversion HF as [| ? ? Hhd Htl]; subst.
  destruct (String.eqb name k).
  - injection Hl as <-. exact Hhd.
  - now apply IH.
Qed.
End Rules.

(* ================================================================= *)
(** ** Houses and signs *)

Lemma band_iff (d : Q) (k : Z) :
  Qfloor (d / 30) + 1 = k
  <-> (30 * inject_Z (k - 1) <= d /\ d < 30 * inject_Z k)%Q.
Proof.
  assert (H30 : (0 < 30)%Q) by reflexivity.
  split.
  - intros H. assert (Hf : Qfloor (d / 30) = k - 1) by lia.
    apply Qfloor_eq_iff in Hf. destruct Hf as [Hlo Hhi].
    replace (k - 1 + 1) with k in Hhi by lia.
    destruct (Qdiv_bounds_inv d 30 _ _ H30 Hlo Hhi). split; lra.
  - intros [Hlo Hhi].
    assert (Hf : Qfloor (d / 30) = k - 1); [| lia].
    apply Qfloor_eq_iff. replace (k - 1 + 1) with k by lia.
    apply Qdiv_bounds; [exact H30 | lra | lra].
Qed.

Lemma floor30_range (d : Q) :
  (0 <= d)%Q -> (d < 360)%Q -> 0 <= Qfloor (d / 30) < 12.
Proof.
  intros Hlo Hhi. apply Qfloor_range.
  - change (inject_Z 0) with 0%Q. apply Qle_shift_div_l; [reflexivity | lra].
  - change (inject_Z 12) with 12%Q. apply Qlt_shift_div_r; [reflexivity | lra].
Qed.

Lemma sign_index_floor (L : Q) :
  (0 <= L)%Q -> (L < 360)%Q ->
  AstroCalc.sign_index L = Qfloor (L / 30) /\ 0 <= Qfloor (L / 30) < 12.
Proof.
  intros Hlo Hhi. pose proof (floor30_range L Hlo Hhi) as Hr.
  unfold AstroCalc.sign_index. rewrite int_floordiv.
  split; [apply Z.mod_small; exact Hr | exact Hr].
Qed.

Lemma zodiac_get (k : Z) :
  0 <= k < 12 -> exists s, list_get ZODIAC k = Ok s.
Proof.
  intros Hk. destruct (small_cases 12 k Hk) as (n & Hn & ->).
  do 12 (destruct n as [| n]; [eexists; reflexivity |]). simpl in Hn. lia.
Qed.

Lemma zodiac_injective (j k : Z) (s : string) :
  0 <= j < 12 -> 0 <= k < 12 ->
  list_get ZODIAC j = Ok s -> list_get ZODIAC k = Ok s -> j = k.
Proof.
  intros Hj Hk.
  destruct (small_cases 12 j Hj) as (a & Ha & ->).
  destruct (small_cases 12 k Hk) as (c & Hc & ->).
  do 12 (destruct a as [| a]; [
    do 12 (destruct c as [| c]; [vm_compute; intros H1 H2; first [reflexivity | congruence] |]);
    simpl in Hc; lia |]).
  simpl in Ha; lia.
Qed.

Section HouseAndSign.
Context {E : EphemerisProvider}.

Lemma house_with_ascendant_zero (ac : AstroCalc.t) (L : Q) :
  AstroCalc.ascendant ac == 0 -> (0 <= L)%Q -> (L < 360)%Q ->
  AstroCalc.house_of_planet ac L = Qfloor (L / 30) + 1.
Proof.
  intros HA HL0 HL1. rewrite house_unfold. f_equal. apply Qfloor_comp.
  assert (Hz : float_mod (L - AstroCalc.ascendant ac) 360 == L).
  { rewrite (float_mod_comp (L - AstroCalc.ascendant ac) L 360) by lra.
    now apply float_mod_small. }
  now rewrite Hz.
Qed.


Lemma moon_sign_ok (ac : AstroCalc.t) :
  exists sign moon_lon,
    AstroCalc.moon_sign ac = Ok (sign, moon_lon)
    /\ dict_get (AstroCalc.planet_longitudes ac) "Moon" = Ok moon_lon
    /\ list_get ZODIAC (AstroCalc.sign_index moon_lon) = Ok sign.
Proof.
  unfold AstroCalc.moon_sign. rewrite moon_longitude_eq. cbn [bind].
  set (L := float_mod _ 360).
  assert (HL : (0 <= L /\ L < 360)%Q) by (apply float_mod_bounds; reflexivity).
  destruct (sign_index_floor L (proj1 HL) (proj2 HL)) as [Hi Hr].
  destruct (zodiac_get (AstroCalc.sign_index L)) as [s Hs]; [rewrite Hi; exact Hr |].
  exists s, L. rewrite Hs. cbn [bind]. now repeat split.
Qed.

Lemma compute_all_ok (ac : AstroCalc.t) :
  exists sign moon_lon,
    AstroCalc.moon_sign ac = Ok (sign, moon_lon)
    /\ AstroCalc.compute_all ac
       = Ok (Chart.mk (AstroCalc.julian_day ac)
               (AstroCalc.planet_longitudes ac) (AstroCalc.ascendant ac)
               (map (fun '(name, lon) =>
                       (name, AstroCalc.house_of_planet ac lon))
                  (AstroCalc.planet_longitudes ac))
               sign moon_lon).
Proof.
  destruct (moon_sign_ok ac) as (s & L & Hm & _ & _).
  exists s, L. split; [exact Hm |].
  unfold AstroCalc.compute_all. now rewrite Hm.
Qed.


End HouseAndSign.

(* ================================================================= *)
(** ** Dasha and Manglik *)

Import VimshottariDasha.

Lemma nak_deg_value : nak_deg == 40 # 3.
Proof. reflexivity. Qed.

Lemma nak_deg_pos : (0 < nak_deg)%Q.
Proof. reflexivity. Qed.

Lemma nak_index_floor (L : Q) : nak_index L = Qfloor (L / (360 / 27)).
Proof. unfold nak_index. apply int_floordiv. Qed.

Lemma nak_index_range (L : Q) :
  (0 <= L)%Q -> (L < 360)%Q -> 0 <= nak_index L < 27.
Proof.
  intros Hlo Hhi. rewrite nak_index_floor. fold nak_deg.
  pose proof nak_deg_value as Hv.
  apply Qfloor_range.
  - change (inject_Z 0) with 0%Q. apply Qle_shift_div_l; [exact nak_deg_pos | lra].
  - change (inject_Z 27) with 27%Q. apply Qlt_shift_div_r; [exact nak_deg_pos | lra].
Qed.

Lemma deg_into_nak_range (L : Q) :
  (0 <= deg_into_nak L /\ deg_into_nak L < nak_deg)%Q.
Proof.
  unfold deg_into_nak. rewrite nak_index_floor. fold nak_deg.
  destruct (Qdiv_bounds_inv L nak_deg _ _ nak_deg_pos
              (Qfloor_le _) (Qlt_floor _)) as [Hlo Hhi].
  rewrite inject_Z_plus in Hhi.
  set (f := inject_Z (Qfloor (L / nak_deg))) in *.
  assert (E1 : (f + inject_Z 1) * nak_deg == f * nak_deg + nak_deg) by ring.
  rewrite E1 in Hhi. split; lra.
Qed.

Lemma prop_range (L : Q) : (0 <= prop L /\ prop L < 1)%Q.
Proof.
  destruct (deg_into_nak_range L) as [Hlo Hhi]. unfold prop.
  apply Qdiv_bounds; [exact nak_deg_pos | lra | lra].
Qed.

Lemma rot_range (L : Q) : 0 <= rot L < 9.
Proof. unfold rot. apply Z.mod_pos_bound. reflexivity. Qed.

(** [rotate r] moves the entry at position [(i + r) mod 9] to position
    [i]: a cyclic rotation to the left by [r] places. *)
Lemma rotate_cyclic (r i : Z) :
  0 <= r < 9 -> 0 <= i < 9 ->
  list_get (rotate r SEQUENCE) i = list_get SEQUENCE ((i + r) mod 9).
Proof.
  intros Hr Hi.
  destruct (small_cases 9 r Hr) as (a & Ha & ->).
  destruct (small_cases 9 i Hi) as (c & Hc & ->).
  do 9 (destruct a as [| a]; [
    do 9 (destruct c as [| c]; [reflexivity |]); simpl in Hc; lia |]).
  simpl in Ha; lia.
Qed.

Lemma lord_of_rotation (r : Z) :
  0 <= r < 9 ->
  exists lord len,
    list_get (rotate r SEQUENCE) 0 = Ok lord
    /\ dict_get LENGTHS lord = Ok len.
Proof.
  intros Hr. destruct (small_cases 9 r Hr) as (a & Ha & ->).
  do 9 (destruct a as [| a]; [do 2 eexists; split; reflexivity |]).
  simpl in Ha; lia.
Qed.

Section DashaAndManglik.
Context {E : EphemerisProvider}.


Lemma is_trigger_In (h : Z) :
  ManglikRule.is_trigger h = true <-> In h ManglikRule.TRIGGER_HOUSES.
Proof.
  unfold ManglikRule.is_trigger. rewrite existsb_exists. split.
  - intros (x & Hx & Heq). apply Z.eqb_eq in Heq. now subst.
  - intros H. exists h. split; [exact H | apply Z.eqb_refl].
Qed.

(** C3.  [ManglikRule.check] returns, for every instance, a result whose
    conclusion is Manglik exactly when the house of Mars is one of 1, 2,
    4, 7, 8, 12, and Not Manglik otherwise; the [trigger] flag is [True]
    in the first case and [False] in the second.  House 8 gives Manglik,
    house 9 gives Not Manglik. *)
Theorem manglik_iff_trigger_house (ac : AstroCalc.t) :
  exists (mars_lon : Q) (d : list (string * pyval)),
    dict_get (AstroCalc.planet_longitudes ac) "Mars" = Ok mars_lon
    /\ ManglikRule.check ac = Ok d
    /\ let h := AstroCalc.house_of_planet ac mars_lon in
       dict_get d "mars_house" = Ok (VInt h)
       /\ (dict_get d "conclusion" = Ok (VStr "Manglik")
           <-> In h [1; 2; 4; 7; 8; 12])
       /\ (dict_get d "conclusion" = Ok (VStr "Not Manglik")
           <-> ~ In h [1; 2; 4; 7; 8; 12])
       /\ (dict_get d "trigger" = Ok (VBool true)
           <-> dict_get d "conclusion" = Ok (VStr "Manglik"))
       /\ (dict_get d "trigger" = Ok (VBool false)
           <-> dict_get d "conclusion" = Ok (VStr "Not Manglik"))
       /\ (h = 8 -> dict_get d "conclusion" = Ok (VStr "Manglik"))
       /\ (h = 9 -> dict_get d "conclusion" = Ok (VStr "Not Manglik")).
Proof.
  eexists. eexists. split; [apply mars_longitude_eq |].
  unfold ManglikRule.check. rewrite mars_longitude_eq. cbn [bind].
  split; [reflexivity |].
  set (h := AstroCalc.house_of_planet ac _). cbv zeta.
  pose proof (is_trigger_In h) as Hin.
  change ManglikRule.TRIGGER_HOUSES with [1; 2; 4; 7; 8; 12] in Hin.
  split; [reflexivity |].
  destruct (ManglikRule.is_trigger h) eqn:Ht; cbn.
  - assert (HI : In h [1; 2; 4; 7; 8; 12]) by now apply Hin.
    split; [split; [intros _; exact HI | reflexivity] |].
    split; [split; [discriminate | intros Hn; contradiction] |].
    split; [split; reflexivity |].
    split; [split; discriminate |].
    split; [reflexivity |].
    intros ->. cbn in HI. lia.
  - assert (HI : ~ In h [1; 2; 4; 7; 8; 12])
      by (intros HI; apply Hin in HI; discriminate).
    split; [split; [discriminate | intros HI'; contradiction] |].
    split; [split; [intros _; exact HI | reflexivity] |].
    split; [split; discriminate |].
    split; [split; reflexivity |].
    split; [| reflexivity].
    intros ->. exfalso. apply HI. cbn. lia.
Qed.
End DashaAndManglik.

(* ================================================================= *)
(** ** The ordinal counts days *)

Ltac eval_tables :=
  repeat match goal with
         | |- context [table ?t ?i] =>
             let v := eval vm_compute in (table t i) in
             change (table t i) with v
         end.

Lemma days_before_next_year (y : Z) :
  days_before_year (y + 1)
  = days_before_year y + 365 + (if is_leap y then 1 else 0).
Proof.
  unfold days_before_year, is_leap. cbv zeta.
  replace (y + 1 - 1) with y by lia.
  destruct (Z.eqb_spec (y mod 4) 0) as [H4 | H4];
    destruct (Z.eqb_spec (y mod 100) 0) as [H100 | H100];
    destruct (Z.eqb_spec (y mod 400) 0) as [H400 | H400];
    cbn [andb orb negb]; Z.div_mod_to_equations; lia.
Qed.

Lemma ymd2ord_tomorrow (y m d : Z) :
  valid_ymd y m d ->
  let '(y', m', d') := tomorrow y m d in
  ymd2ord y' m' d' = ymd2ord y m d + 1.
Proof.
  intros (Hy & Hm & Hd). unfold tomorrow.
  destruct (Z.ltb_spec d (days_in_month y m)) as [Hlt | Hge].
  - unfold ymd2ord. lia.
  - assert (Hlast : d = days_in_month y m) by lia.
    destruct (Z.ltb_spec m 12) as [Hm12 | Hm12].
    + unfold ymd2ord, days_before_month. rewrite Hlast. unfold days_in_month.
      assert (Hc : m = 1 \/ m = 2 \/ m = 3 \/ m = 4 \/ m = 5 \/ m = 6
                   \/ m = 7 \/ m = 8 \/ m = 9 \/ m = 10 \/ m = 11) by lia.
      destruct Hc as [-> | [-> | [-> | [-> | [-> | [-> | [-> | [-> | [-> | [-> | ->]]]]]]]]]];
        destruct (is_leap y); eval_tables; cbn; lia.
    + assert (m = 12) by lia. subst m.
      unfold ymd2ord. rewrite days_before_next_year, Hlast.
      unfold days_before_month, days_in_month.
      destruct (is_leap y); destruct (is_leap (y + 1)); eval_tables; cbn; lia.
Qed.

(* ================================================================= *)
(** ** Reading the birth input *)

Lemma int_of_str_error (s : string) (e : exn) :
  int_of_str s = Raise e -> e = ValueError.
Proof.
  unfold int_of_str.
  destruct (match strip s with
            | String "+" t' => read_unsigned t'
            | String "-" t' => option_map Z.opp (read_unsigned t')
            | _ => read_unsigned (strip s)
            end); [discriminate | now intros [= <-]].
Qed.

Lemma mapM_int_error (l : list string) (e : exn) :
  mapM int_of_str l = Raise e -> e = ValueError.
Proof.
  induction l as [| s l IH]; cbn [mapM]; [discriminate |].
  destruct (int_of_str s) eqn:Hs; cbn [bind].
  - destruct (mapM int_of_str l); cbn [bind]; [discriminate |].
    intros [= <-]. now apply IH.
  - intros [= <-]. now apply (int_of_str_error s).
Qed.

Lemma parse_date_error (b : Birth.t) (e : exn) :
  AstroCalc.parse_date b = Raise e -> e = ValueError.
Proof.
  unfold AstroCalc.parse_date, AstroCalc.int_fields.
  destruct (mapM int_of_str _) as [ds |] eqn:Hm; cbn [bind].
  - destruct ds as [| ? [| ? [| ? [| ? ?]]]]; cbn; congruence.
  - intros [= <-]. now apply mapM_int_error in Hm.
Qed.

Lemma parse_time_error (b : Birth.t) (e : exn) :
  AstroCalc.parse_time b = Raise e -> e = ValueError.
Proof.
  unfold AstroCalc.parse_time, AstroCalc.int_fields.
  destruct (mapM int_of_str _) as [ts |] eqn:Hm; cbn [bind].
  - destruct ts as [| ? [| ? [| ? ?]]]; cbn; congruence.
  - intros [= <-]. now apply mapM_int_error in Hm.
Qed.

Lemma local_datetime_inv (b : Birth.t) (dt : datetime) :
  AstroCalc.local_datetime b = Ok dt ->
  exists y m d h mi,
    AstroCalc.parse_date b = Ok (y, m, d)
    /\ AstroCalc.parse_time b = Ok (h, mi)
    /\ dt = mk_datetime y m d h mi 0 0 /\ valid_datetime dt.
Proof.
  unfold AstroCalc.local_datetime.
  destruct (AstroCalc.parse_date b) as [[[y m] d] |] eqn:Hd; cbn [bind];
    [| discriminate].
  destruct (AstroCalc.parse_time b) as [[h mi] |] eqn:Ht; cbn [bind];
    [| discriminate].
  intros H. apply datetime_new_inv in H. destruct H as [-> Hv].
  exists y, m, d, h, mi.
  split; [reflexivity |]. split; [reflexivity |]. split; [reflexivity | exact Hv].
Qed.

Lemma datetime_micros_representable (dt : datetime) :
  valid_datetime dt -> representable (datetime_micros dt).
Proof.
  intros (Hd & Hh & Hm & Hs & Hu).
  apply valid_date_iff in Hd. destruct Hd as [Hv Hy].
  destruct (ord2ymd_ymd2ord _ _ _ Hv) as (_ & Hlo & Hhi). specialize (Hhi Hy).
  unfold representable, datetime_micros, US_PER_DAY, US_PER_SECOND, MAXORDINAL in *.
  lia.
Qed.

Lemma timedelta_hours_error (h : Q) (e : exn) :
  timedelta_hours h = Raise e -> e = OverflowError.
Proof.
  unfold timedelta_hours. destruct (_ || _); [now intros [= <-] | discriminate].
Qed.

Lemma timedelta_hours_small (h : Q) :
  let us := round_half_even (h * inject_Z (3600 * US_PER_SECOND)) in
  - (MAXORDINAL + 1) * US_PER_DAY < us < (MAXORDINAL + 1) * US_PER_DAY ->
  timedelta_hours h = Ok us.
Proof.
  intros us Hus. unfold timedelta_hours. fold us.
  assert (Hd : -999999999 <= us / US_PER_DAY <= 999999999).
  { assert (Hdm : us = US_PER_DAY * (us / US_PER_DAY) + us mod US_PER_DAY)
      by (apply Z.div_mod; discriminate).
    assert (Hr : 0 <= us mod US_PER_DAY < US_PER_DAY)
      by (apply Z.mod_pos_bound; reflexivity).
    unfold US_PER_DAY, US_PER_SECOND, MAXORDINAL in *. lia. }
  replace ((us / US_PER_DAY <? -999999999) || (999999999 <? us / US_PER_DAY))
    with false; [reflexivity |].
  symmetry. apply orb_false_iff. split; apply Z.ltb_ge; lia.
Qed.

Lemma ut_datetime_spec (b : Birth.t) (dt_local : datetime) :
  AstroCalc.local_datetime b = Ok dt_local ->
  let offset :=
    round_half_even (AstroCalc.tz_of b * inject_Z (3600 * US_PER_SECOND)) in
  let instant := datetime_micros dt_local - offset in
  (representable instant ->
   exists dt_ut, AstroCalc.ut_datetime b = Ok dt_ut
                 /\ valid_datetime dt_ut /\ datetime_micros dt_ut = instant)
  /\ (~ representable instant ->
      AstroCalc.ut_datetime b = Raise OverflowError).
Proof.
  intros Hl offset instant.
  destruct (local_datetime_inv b dt_local Hl) as (y & m & d & h & mi & _ & _ & _ & Hv).
  pose proof (datetime_micros_representable dt_local Hv) as Hrep.
  unfold AstroCalc.ut_datetime. rewrite Hl. cbn [bind].
  destruct (datetime_sub_spec dt_local offset) as [Hin Hout]. fold instant in Hin, Hout.
  split.
  - intros Hi.
    rewrite timedelta_hours_small.
    + cbn [bind]. now apply Hin.
    + fold offset. unfold representable in *. unfold instant in Hi.
      unfold US_PER_DAY, US_PER_SECOND, MAXORDINAL in *. lia.
  - intros Hi.
    destruct (timedelta_hours (AstroCalc.tz_of b)) as [td |] eqn:Htd; cbn [bind].
    + apply timedelta_hours_inv in Htd. fold offset in Htd. subst td. now apply Hout.
    + apply timedelta_hours_error in Htd. now subst.
Qed.

Section TimeConversion.
Context {E : EphemerisProvider}.

Lemma init_of_ut (b : Birth.t) :
  AstroCalc.init b =
  dt_ut <- AstroCalc.ut_datetime b ;;
  Ok (AstroCalc.mk b
        (swe_julday (year dt_ut) (month dt_ut) (day dt_ut)
           (inject_Z (hour dt_ut) + inject_Z (minute dt_ut) / 60))
        (Birth.lat b) (Birth.lon b)).
Proof.
  unfold AstroCalc.init, AstroCalc._compute_julian_day.
  now destruct (AstroCalc.ut_datetime b).
Qed.



End TimeConversion.

(* ================================================================= *)
(** ** The result of the dasha rule *)

Section DashaResult.
Context {E : EphemerisProvider}.

(** C8, as amended.  For every instance the result of [current_dasha] has
    exactly the keys [mahadasha], [explanation] and [moon_longitude]: the
    lord, the text, and the Moon longitude.  The text states the Moon
    longitude to 3 decimals, the nakshatra index, the degrees into the
    nakshatra to 3 decimals, the lord, and the remaining years to 3
    decimals; the remaining years are given there and nowhere else. *)
Theorem current_dasha_result_shape (ac : AstroCalc.t) :
  exists (moon_lon : Q) (lord : string) (remaining : Q)
         (d : list (string * pyval)),
    current_dasha ac = Ok d
    /\ dict_get (AstroCalc.planet_longitudes ac) "Moon" = Ok moon_lon
    /\ first_lord moon_lon = Ok lord
    /\ remaining_years_first moon_lon = Ok remaining
    /\ dict_keys d = ["mahadasha"; "explanation"; "moon_longitude"]
    /\ dict_get d "mahadasha" = Ok (VStr lord)
    /\ dict_get d "moon_longitude" = Ok (VFloat moon_lon)
    /\ dict_get d "explanation"
       = Ok (VStr
               ("Moon longitude " ++ format_3f moon_lon
                  ++ "째, nakshatra index "
                  ++ str_of_int (nak_index moon_lon)
                  ++ ", degree into nakshatra "
                  ++ format_3f (deg_into_nak moon_lon) ++ "째. "
                  ++ "Approx current Mahadasha lord (simplified) = "
                  ++ lord ++ ", remaining approx = "
                  ++ format_3f remaining ++ " years.")%string).
Proof.
  pose proof (moon_longitude_eq ac) as Hmoon.
  set (L := float_mod _ 360) in Hmoon.
  destruct (lord_of_rotation (rot L) (rot_range L)) as (lord & len & Hl & Hlen).
  assert (Hf : first_lord L = Ok lord) by exact Hl.
  assert (Hrem : remaining_years_first L
                 = Ok (inject_Z len * (1 - prop L))%Q).
  { unfold remaining_years_first. rewrite Hf. cbn [bind].
    rewrite Hlen. reflexivity. }
  exists L, lord, (inject_Z len * (1 - prop L))%Q.
  eexists. split.
  { unfold current_dasha. rewrite Hmoon. cbn [bind].
    rewrite Hf. cbn [bind]. rewrite Hrem. cbn [bind]. reflexivity. }
  split; [exact Hmoon |]. split; [exact Hf |]. split; [exact Hrem |].
  split; [reflexivity |]. split; [reflexivity |]. split; reflexivity.
Qed.
End DashaResult.

(** ** The same answers give the same results *)

Section TwoProviders.
Variables E1 E2 : EphemerisProvider.
Hypothesis Hsame : same_answers E1 E2.

Lemma init_ext (b : Birth.t) : @AstroCalc.init E1 b = @AstroCalc.init E2 b.
Proof.
  destruct Hsame as (Hj & _ & _).
  rewrite !init_of_ut. destruct (AstroCalc.ut_datetime b); cbn [bind];
    [now rewrite Hj | reflexivity].
Qed.

Lemma planet_longitudes_ext (ac : AstroCalc.t) :
  @AstroCalc.planet_longitudes E1 ac = @AstroCalc.planet_longitudes E2 ac.
Proof.
  destruct Hsame as (_ & Hc & _).
  unfold AstroCalc.planet_longitudes. apply map_ext.
  intros [name pid]. now rewrite Hc.
Qed.

Lemma ascendant_ext (ac : AstroCalc.t) :
  @AstroCalc.ascendant E1 ac = @AstroCalc.ascendant E2 ac.
Proof.
  destruct Hsame as (_ & _ & Hh). unfold AstroCalc.ascendant. now rewrite Hh.
Qed.

Lemma house_of_planet_ext (ac : AstroCalc.t) (L : Q) :
  @AstroCalc.house_of_planet E1 ac L = @AstroCalc.house_of_planet E2 ac L.
Proof. unfold AstroCalc.house_of_planet. now rewrite ascendant_ext. Qed.

Lemma moon_sign_ext (ac : AstroCalc.t) :
  @AstroCalc.moon_sign E1 ac = @AstroCalc.moon_sign E2 ac.
Proof. unfold AstroCalc.moon_sign. now rewrite planet_longitudes_ext. Qed.

Lemma compute_all_ext (ac : AstroCalc.t) :
  @AstroCalc.compute_all E1 ac = @AstroCalc.compute_all E2 ac.
Proof.
  unfold AstroCalc.compute_all.
  rewrite moon_sign_ext, planet_longitudes_ext, ascendant_ext.
  destruct (@AstroCalc.moon_sign E2 ac) as [[s L] |]; cbn [bind]; [| reflexivity].
  do 2 f_equal. apply map_ext. intros [name lon]. now rewrite house_of_planet_ext.
Qed.

Lemma check_ext (ac : AstroCalc.t) :
  @ManglikRule.check E1 ac = @ManglikRule.check E2 ac.
Proof.
  unfold ManglikRule.check. rewrite planet_longitudes_ext.
  destruct (dict_get _ "Mars") as [L |]; cbn [bind]; [| reflexivity].
  now rewrite house_of_planet_ext.
Qed.

Lemma get_ext (ac : AstroCalc.t) :
  @MoonSignRule.get E1 ac = @MoonSignRule.get E2 ac.
Proof. unfold MoonSignRule.get. now rewrite moon_sign_ext. Qed.

Lemma current_dasha_ext (ac : AstroCalc.t) :
  @current_dasha E1 ac = @current_dasha E2 ac.
Proof. unfold current_dasha. now rewrite planet_longitudes_ext. Qed.
End TwoProviders.


(** ** Sample runs *)

Example fixture_instance : @AstroCalc.init Fixture.stub Fixture.birth = Ok Fixture.ac.
Proof. vm_compute. reflexivity. Qed.

(** The chart of the sample input: every body but Mars and the Moon is at
    330 degrees, in house 12. *)
Example fixture_chart :
  @AstroCalc.compute_all Fixture.stub Fixture.ac
  = Ok (Chart.mk (35337904170 # 14400)
          [("Sun", 330%Q); ("Moon", 0%Q); ("Mars", 215%Q);
           ("Mercury", 330%Q); ("Jupiter", 330%Q); ("Venus", 330%Q);
           ("Saturn", 330%Q)]
          0%Q
          [("Sun", 12); ("Moon", 1); ("Mars", 8); ("Mercury", 12);
           ("Jupiter", 12); ("Venus", 12); ("Saturn", 12)]
          "Aries" 0%Q).
Proof. vm_compute. reflexivity. Qed.

(** West of Greenwich late in the evening: the universal-time date is the
    next day, here the next year. *)
Example ut_next_day :
  AstroCalc.ut_datetime
    (Birth.mk "2006-12-31" "23:00" 0 0 (Some (- (5))%Q))
  = Ok (mk_datetime 2007 1 1 4 0 0 0).
Proof. vm_compute. reflexivity. Qed.

(** East of Greenwich early in the morning: the universal-time date is the
    previous day, here the leap day. *)
Example ut_previous_day :
  AstroCalc.ut_datetime
    (Birth.mk "2004-03-01" "01:00" 0 0 (Some (11 # 2)))
  = Ok (mk_datetime 2004 2 29 19 30 0 0).
Proof. vm_compute. reflexivity. Qed.

(** ** Counterexamples *)



(** C8 as stated fails: with the Moon at 0 degrees the remaining years are
    7, and no entry of the result holds that value. *)
Lemma dasha_result_without_remaining_years :
  exists (d : list (string * pyval)) (remaining : Q),
    @current_dasha Fixture.stub Fixture.ac = Ok d
    /\ remaining_years_first 0 = Ok remaining
    /\ remaining == 7
    /\ forall (k : string) (q : Q),
        dict_get d k = Ok (VFloat q) -> ~ q == remaining.
Proof.
  eexists. eexists. split; [vm_compute; reflexivity |].
  split; [reflexivity |]. split; [reflexivity |].
  intros k q. unfold dict_get. cbn [dict_lookup].
  destruct (String.eqb k "mahadasha"); [discriminate |].
  destruct (String.eqb k "explanation"); [discriminate |].
  destruct (String.eqb k "moon_longitude"); [| discriminate].
  intros [= <-]. discriminate.
Qed.

(* ================================================================= *)
(** ** The theorems at the sample inputs *)



(** Mars at 215 degrees is in house 8, Mars at 245 degrees in house 9. *)
Lemma manglik_iff_trigger_house_witness :
  (exists d, @ManglikRule.check Fixture.stub Fixture.ac = Ok d
             /\ dict_get d "mars_house" = Ok (VInt 8)
             /\ dict_get d "conclusion" = Ok (VStr "Manglik"))
  /\ (exists d, @ManglikRule.check Fixture.stub9 Fixture.ac = Ok d
                /\ dict_get d "mars_house" = Ok (VInt 9)
                /\ dict_get d "conclusion" = Ok (VStr "Not Manglik")).
Proof.
  split.
  - destruct (@manglik_iff_trigger_house Fixture.stub Fixture.ac)
      as (L & d & HL & Hd & Hh & _ & _ & _ & _ & H8 & _).
    injection HL as <-.
    exists d. split; [exact Hd |]. split; [exact Hh |].
    apply H8. reflexivity.
  - destruct (@manglik_iff_trigger_house Fixture.stub9 Fixture.ac)
      as (L & d & HL & Hd & Hh & _ & _ & _ & _ & _ & H9).
    injection HL as <-.
    exists d. split; [exact Hd |]. split; [exact Hh |].
    apply H9. reflexivity.
Defined.






(* ================================================================= *)
(** ** Text *)

Ltac each_char c :=
  destruct c as [[] [] [] [] [] [] [] []].

Lemma lower_char_idem (c : ascii) : lower_char (lower_char c) = lower_char c.
Proof. each_char c; reflexivity. Qed.

Lemma is_space_lower_char (c : ascii) : is_space (lower_char c) = is_space c.
Proof. each_char c; reflexivity. Qed.

Lemma lower_idem (s : string) : lower (lower s) = lower s.
Proof.
  induction s as [| c s IH]; [reflexivity |].
  cbn [lower]. now rewrite lower_char_idem, IH.
Qed.

Lemma lower_app (s t : string) : lower (s ++ t) = (lower s ++ lower t)%string.
Proof.
  induction s as [| c s IH]; [reflexivity |].
  cbn [lower append]. now rewrite IH.
Qed.

Lemma lower_empty (s : string) : lower s = EmptyString -> s = EmptyString.
Proof. destruct s; [reflexivity | discriminate]. Qed.

Lemma lower_lstrip (s : string) : lower (lstrip s) = lstrip (lower s).
Proof.
  induction s as [| c s IH]; [reflexivity |].
  cbn [lstrip lower]. rewrite is_space_lower_char.
  destruct (is_space c); [exact IH | reflexivity].
Qed.

Lemma lower_rstrip (s : string) : lower (rstrip s) = rstrip (lower s).
Proof.
  induction s as [| c s IH]; [reflexivity |].
  cbn [rstrip lower]. rewrite <- IH, is_space_lower_char.
  destruct (rstrip s); cbn [lower]; [destruct (is_space c) |]; reflexivity.
Qed.

Lemma lower_strip (s : string) : lower (strip s) = strip (lower s).
Proof. unfold strip. now rewrite lower_rstrip, lower_lstrip. Qed.

Lemma lstrip_all_space (s : string) :
  all_space s = true -> lstrip s = EmptyString.
Proof.
  induction s as [| c s IH]; [reflexivity |].
  cbn [all_space lstrip]. destruct (is_space c); [exact IH | discriminate].
Qed.

Lemma lstrip_app_space (pre s : string) :
  all_space pre = true -> lstrip (pre ++ s) = lstrip s.
Proof.
  induction pre as [| c pre IH]; [reflexivity |].
  cbn [all_space append lstrip]. destruct (is_space c); [exact IH | discriminate].
Qed.

Lemma rstrip_all_space (s : string) :
  all_space s = true -> rstrip s = EmptyString.
Proof.
  induction s as [| c s IH]; [reflexivity |].
  cbn [all_space rstrip]. destruct (is_space c); [| discriminate].
  intros H. now rewrite (IH H).
Qed.

Lemma rstrip_app_space (s post : string) :
  all_space post = true -> rstrip (s ++ post) = rstrip s.
Proof.
  intros Hp. induction s as [| c s IH].
  - now apply rstrip_all_space.
  - cbn [append rstrip]. now rewrite IH.
Qed.

Lemma strip_app_space_r (s post : string) :
  all_space post = true -> strip (s ++ post) = strip s.
Proof.
  intros Hp. unfold strip. induction s as [| c s IH].
  - cbn [append]. rewrite (lstrip_all_space post Hp). reflexivity.
  - cbn [append lstrip]. destruct (is_space c); [exact IH |].
    change (String c (s ++ post)) with (String c s ++ post)%string.
    now apply rstrip_app_space.
Qed.

(** Surrounding white space does not change [strip]. *)
Lemma strip_padding (pre s post : string) :
  all_space pre = true -> all_space post = true ->
  strip (pre ++ s ++ post) = strip s.
Proof.
  intros Hpre Hpost. unfold strip at 1. rewrite lstrip_app_space by exact Hpre.
  now apply strip_app_space_r.
Qed.

Lemma strip_all_space (s : string) :
  all_space s = true -> strip s = EmptyString.
Proof. intros H. unfold strip. now rewrite lstrip_all_space. Qed.

(** ** Substrings *)

Lemma prefix_iff (p s : string) :
  String.prefix p s = true <-> exists post, s = (p ++ post)%string.
Proof.
  revert s. induction p as [| c p IH]; intros s.
  - split; [intros _; now exists s | intros _; now destruct s].
  - destruct s as [| c' s]; cbn [String.prefix].
    + split; [discriminate | intros [post H]; discriminate].
    + destruct (ascii_dec c c') as [<- | Hne].
      * rewrite IH. split; intros [post H]; exists post.
        -- now rewrite H.
        -- now injection H.
      * split; [discriminate |]. intros [post H]. injection H as H1 _. congruence.
Qed.

Lemma append_assoc_r (a b c : string) :
  ((a ++ b) ++ c = a ++ b ++ c)%string.
Proof. induction a as [| x a IH]; [reflexivity |]. cbn. now rewrite IH. Qed.

(** [str_contains sub s] holds exactly when [s] is some text, then [sub],
    then some text. *)
Lemma str_contains_iff (sub s : string) :
  str_contains sub s = true
  <-> exists pre post, s = (pre ++ sub ++ post)%string.
Proof.
  induction s as [| c s IH]; cbn [str_contains].
  - rewrite prefix_iff. split.
    + intros [post H]. now exists EmptyString, post.
    + intros (pre & post & H). destruct pre; [| discriminate].
      now exists post.
  - rewrite orb_true_iff, prefix_iff, IH. split.
    + intros [[post H] | (pre & post & H)].
      * now exists EmptyString, post.
      * exists (String c pre), post. now rewrite H.
    + intros (pre & post & H). destruct pre as [| c' pre].
      * left. now exists post.
      * right. injection H as _ H. now exists pre, post.
Qed.

Lemma str_contains_trans (a b s : string) :
  str_contains a b = true -> str_contains b s = true ->
  str_contains a s = true.
Proof.
  rewrite !str_contains_iff. intros (p1 & q1 & ->) (p2 & q2 & ->).
  exists (p2 ++ p1)%string, (q1 ++ q2)%string.
  now rewrite !append_assoc_r.
Qed.

Lemma str_contains_lower_app (k pre post : string) :
  str_contains k (pre ++ k ++ post) = true.
Proof. apply str_contains_iff. now exists pre, post. Qed.

(* ================================================================= *)
(** ** Looking up a place *)

(** The result depends on the text through its key only. *)
Lemma lookup_place_by_key (s : string) :
  lookup_place (Some s) = key_lookup (place_key s).
Proof. destruct s; reflexivity. Qed.

Lemma dict_lookup_In {V : Type} (k : string) (d : list (string * V)) (v : V) :
  dict_lookup k d = Some v -> In (k, v) d.
Proof.
  induction d as [| [k' v'] d IH]; cbn [dict_lookup]; [discriminate |].
  destruct (String.eqb_spec k k') as [<- | Hne].
  - intros [= <-]. now left.
  - intros H. right. now apply IH.
Qed.

Lemma first_known_split (tokens : list string) (p : Place.t) :
  first_known tokens = Some p ->
  exists before token after,
    tokens = before ++ token :: after
    /\ Forall (fun t => dict_lookup t PLACE_DICT = None) before
    /\ dict_lookup token PLACE_DICT = Some p.
Proof.
  induction tokens as [| t ts IH]; cbn [first_known]; [discriminate |].
  destruct (dict_lookup t PLACE_DICT) as [p' |] eqn:Ht.
  - intros [= <-]. exists [], t, ts. repeat split; [constructor | exact Ht].
  - intros H. destruct (IH H) as (before & token & after & -> & HF & Hk).
    exists (t :: before), token, after.
    repeat split; [constructor; assumption | exact Hk].
Qed.

Lemma has_char_replaced (a b : ascii) (s : string) :
  a <> b -> has_char a (replace_char a b s) = false.
Proof.
  intros Hab. induction s as [| c s IH]; [reflexivity |].
  cbn [replace_char has_char]. rewrite IH, orb_false_r.
  destruct (Ascii.eqb_spec c a) as [-> | Hne].
  - apply Ascii.eqb_neq. congruence.
  - now apply Ascii.eqb_neq.
Qed.

(** The tokens of [split_ws]: not empty, without white space, made of
    characters of the text. *)
Lemma split_ws_tokens (s : string) :
  Forall (fun t =>
            t <> EmptyString
            /\ (forall c, is_space c = true -> has_char c t = false)
            /\ (forall c, has_char c t = true -> has_char c s = true))
    (split_ws s).
Proof.
  induction s as [| c s IH]; [constructor |].
  cbn [split_ws]. destruct (is_space c) eqn:Hc.
  - eapply Forall_impl; [| exact IH]. cbn beta.
    intros t (Hne & Hsp & Hin). repeat split; try assumption.
    intros x Hx. cbn [has_char]. rewrite (Hin x Hx). apply orb_true_r.
  - assert (Hsingle :
             String c EmptyString <> EmptyString
             /\ (forall x, is_space x = true ->
                           has_char x (String c EmptyString) = false)
             /\ (forall x, has_char x (String c EmptyString) = true ->
                           has_char x (String c s) = true)).
    { split; [discriminate |]. split.
      - intros x Hx. cbn [has_char]. rewrite orb_false_r.
        apply Ascii.eqb_neq. intros ->. congruence.
      - intros x. cbn [has_char]. rewrite orb_false_r. intros ->. reflexivity. }
    assert (Hrest :
             Forall (fun t =>
                       t <> EmptyString
                       /\ (forall x, is_space x = true -> has_char x t = false)
                       /\ (forall x, has_char x t = true ->
                                     has_char x (String c s) = true))
               (split_ws s)).
    { eapply Forall_impl; [| exact IH]. cbn beta.
      intros t (Hne & Hsp & Hin). repeat split; try assumption.
      intros x Hx. cbn [has_char]. rewrite (Hin x Hx). apply orb_true_r. }
    destruct s as [| c' s']; [constructor; [exact Hsingle | constructor] |].
    destruct (is_space c') eqn:Hc'; [constructor; assumption |].
    destruct (split_ws (String c' s')) as [| w ws];
      [constructor; [exact Hsingle | constructor] |].
    inversion Hrest as [| ? ? (Hne & Hsp & Hin) Hws]; subst.
    constructor; [| exact Hws].
    split; [discriminate |]. split.
    + intros x Hx. cbn [has_char]. rewrite (Hsp x Hx), orb_false_r.
      apply Ascii.eqb_neq. intros ->. congruence.
    + intros x Hx. cbn [has_char] in Hx. apply orb_true_iff in Hx.
      destruct Hx as [Hx | Hx]; [| now apply Hin].
      cbn [has_char]. now rewrite Hx.
Qed.

Lemma place_tokens_plain (key : string) :
  Forall (fun t => has_char " " t = false /\ has_char "," t = false)
    (place_tokens key).
Proof.
  unfold place_tokens.
  eapply Forall_impl; [| apply split_ws_tokens]. cbn beta.
  intros t (_ & Hsp & Hin). split; [now apply Hsp |].
  destruct (has_char "," t) eqn:Hc; [| reflexivity].
  apply Hin in Hc. rewrite has_char_replaced in Hc; discriminate.
Qed.

Lemma place_in_range :
  Forall (fun kv : string * Place.t =>
            (- (90) <= Place.lat (snd kv) /\ Place.lat (snd kv) <= 90
             /\ - (180) <= Place.lon (snd kv) /\ Place.lon (snd kv) <= 180)%Q)
    PLACE_DICT.
Proof. unfold PLACE_DICT. repeat constructor; cbn; discriminate. Qed.

Lemma key_lookup_In (key : string) (p : Place.t) :
  key_lookup key = Some p -> exists k, In (k, p) PLACE_DICT.
Proof.
  unfold key_lookup. destruct (dict_lookup key PLACE_DICT) as [p' |] eqn:Hk.
  - intros [= <-]. exists key. now apply dict_lookup_In.
  - intros H. destruct (first_known_split _ _ H) as (_ & token & _ & _ & _ & Ht).
    exists token. now apply dict_lookup_In.
Qed.

(** X1.  [lookup_place] ignores the case of the letters and the white space
    around the text: two texts with the same lower-case form, one of them
    padded, get the same answer. *)
Theorem lookup_place_ignores_case_and_padding (s1 s2 pre post : string) :
  lower s1 = lower s2 ->
  all_space pre = true -> all_space post = true ->
  lookup_place (Some (pre ++ s1 ++ post)%string) = lookup_place (Some s2).
Proof.
  intros Hl Hpre Hpost. rewrite !lookup_place_by_key. f_equal.
  unfold place_key. rewrite strip_padding by assumption.
  now rewrite !lower_strip, Hl.
Qed.

(** X2.  Whatever the text, a place returned by [lookup_place] is an entry
    of [PLACE_DICT], with a latitude between -90 and 90 and a longitude
    between -180 and 180. *)
Theorem lookup_place_returns_table_entry (place_text : option string) (p : Place.t) :
  lookup_place place_text = Some p ->
  (exists k, In (k, p) PLACE_DICT)
  /\ (- (90) <= Place.lat p /\ Place.lat p <= 90)%Q
  /\ (- (180) <= Place.lon p /\ Place.lon p <= 180)%Q.
Proof.
  intros H.
  assert (Hin : exists k, In (k, p) PLACE_DICT).
  { destruct place_text as [s |]; [| discriminate].
    rewrite lookup_place_by_key in H. now apply key_lookup_In in H. }
  split; [exact Hin |]. destruct Hin as [k Hk].
  pose proof place_in_range as HF. rewrite Forall_forall in HF.
  specialize (HF _ Hk). cbn [snd] in HF. tauto.
Qed.

(** X3.  A place is found either because the whole key is in the table, or,
    when it is not, as the entry of the first token that is a key; a token
    holds no blank and no comma, so a name of two words is found by the whole
    key only. *)
Theorem lookup_place_exact_key_then_first_token (s : string) (p : Place.t) :
  lookup_place (Some s) = Some p ->
  let key := place_key s in
  dict_lookup key PLACE_DICT = Some p
  \/ (dict_lookup key PLACE_DICT = None
      /\ exists before token after,
          place_tokens key = before ++ token :: after
          /\ Forall (fun t => dict_lookup t PLACE_DICT = None) before
          /\ dict_lookup token PLACE_DICT = Some p
          /\ has_char " " token = false /\ has_char "," token = false).
Proof.
  intros H key. rewrite lookup_place_by_key in H. fold key in H.
  unfold key_lookup in H.
  destruct (dict_lookup key PLACE_DICT) as [p' |] eqn:Hk; [left; exact H | right].
  split; [reflexivity |].
  destruct (first_known_split _ _ H) as (before & token & after & Heq & HF & Ht).
  exists before, token, after. split; [exact Heq |]. split; [exact HF |].
  split; [exact Ht |].
  pose proof (place_tokens_plain key) as HP. rewrite Heq in HP.
  apply Forall_app in HP. destruct HP as [_ HP].
  inversion HP as [| ? ? Hplain _]; subst. exact Hplain.
Qed.

(* ================================================================= *)
(** ** Houses around the circle *)

(** The value in [[0, 360)] that differs from [x] by a multiple of 360 is
    [x % 360]. *)
Lemma float_mod_360_unique (x r : Q) (k : Z) :
  (0 <= r)%Q -> (r < 360)%Q -> r == x - inject_Z k * 360 ->
  float_mod x 360 == r.
Proof.
  intros Hlo Hhi Hr.
  assert (Hf : Qfloor (x / 360) = k).
  { apply Qfloor_eq_iff. rewrite inject_Z_plus.
    change (inject_Z 1) with 1%Q.
    apply Qdiv_bounds; [reflexivity | lra | lra]. }
  unfold float_mod. rewrite Hf. lra.
Qed.

Section HouseCircle.
Context {E : EphemerisProvider}.

Lemma house_of_planet_comp (ac : AstroCalc.t) (L L' : Q) :
  L == L' -> AstroCalc.house_of_planet ac L = AstroCalc.house_of_planet ac L'.
Proof.
  intros H. rewrite !house_unfold. f_equal. apply Qfloor_comp.
  assert (Hm : float_mod (L - AstroCalc.ascendant ac) 360
               == float_mod (L' - AstroCalc.ascendant ac) 360)
    by (apply float_mod_comp; lra).
  now rewrite Hm.
Qed.

Lemma house_range (ac : AstroCalc.t) (L : Q) :
  1 <= AstroCalc.house_of_planet ac L <= 12.
Proof.
  rewrite house_unfold.
  assert (H360 : (0 < 360)%Q) by reflexivity.
  pose proof (float_mod_bounds (L - AstroCalc.ascendant ac) 360 H360) as [Hlo Hhi].
  pose proof (floor30_range _ Hlo Hhi). lia.
Qed.

Lemma house_next (ac : AstroCalc.t) (L : Q) :
  AstroCalc.house_of_planet ac (L + 30)
  = AstroCalc.house_of_planet ac L mod 12 + 1.
Proof.
  pose proof (house_range ac L) as Hh.
  remember (AstroCalc.house_of_planet ac L) as h eqn:Heqh.
  symmetry in Heqh. rewrite house_unfold in Heqh |- *.
  set (A := AstroCalc.ascendant ac) in *.
  assert (H360 : (0 < 360)%Q) by reflexivity.
  pose proof (float_mod_bounds (L - A) 360 H360) as [Hlo Hhi].
  destruct (float_mod_congruent (L - A) 360) as [k Hk].
  set (d := float_mod (L - A) 360) in *.
  apply band_iff in Heqh. destruct Heqh as [Hb1 Hb2].
  destruct (Qlt_le_dec d 330) as [Hd | Hd].
  - assert (Hh11 : h <= 11).
    { assert (Hq : (inject_Z (h - 1) < inject_Z 11)%Q)
        by (change (inject_Z 11) with 11%Q; lra).
      rewrite <- Zlt_Qlt in Hq. lia. }
    assert (Hm : float_mod (L + 30 - A) 360 == d + 30).
    { apply (float_mod_360_unique _ _ k); lra. }
    rewrite (Qfloor_comp _ ((d + 30) / 30)) by now rewrite Hm.
    rewrite Z.mod_small by lia.
    apply band_iff. replace (h + 1 - 1) with h by lia.
    rewrite inject_Z_plus. change (inject_Z 1) with 1%Q.
    assert (Hi : inject_Z (h - 1) == inject_Z h - 1).
    { unfold Z.sub. rewrite inject_Z_plus. reflexivity. }
    rewrite Hi in Hb1. lra.
  - assert (Hh12 : h = 12).
    { assert (Hq : (inject_Z 11 < inject_Z h)%Q)
        by (change (inject_Z 11) with 11%Q; lra).
      rewrite <- Zlt_Qlt in Hq. lia. }
    assert (Hm : float_mod (L + 30 - A) 360 == d - 330).
    { apply (float_mod_360_unique _ _ (k + 1)); [lra | lra |].
      rewrite inject_Z_plus. change (inject_Z 1) with 1%Q. lra. }
    rewrite (Qfloor_comp _ ((d - 330) / 30)) by now rewrite Hm.
    subst h. change (12 mod 12 + 1) with 1.
    apply band_iff. change (inject_Z (1 - 1)) with 0%Q.
    change (inject_Z 1) with 1%Q. lra.
Qed.

End HouseCircle.

(* ================================================================= *)
(** ** The Manglik bands *)

Section ManglikBands.
Context {E : EphemerisProvider}.

Lemma check_entries (ac : AstroCalc.t) :
  exists (res : list (string * pyval)) (text : string),
    ManglikRule.check ac = Ok res
    /\ let mars_lon :=
         float_mod (swe_calc_ut (AstroCalc.julian_day ac) MARS) 360 in
       let h := AstroCalc.house_of_planet ac mars_lon in
       dict_keys res
       = ["conclusion"; "explanation"; "trigger"; "mars_longitude";
          "mars_house"]
       /\ dict_get res "conclusion"
          = Ok (VStr (if ManglikRule.is_trigger h
                      then "Manglik" else "Not Manglik"))
       /\ dict_get res "explanation" = Ok (VStr text)
       /\ dict_get res "trigger" = Ok (VBool (ManglikRule.is_trigger h))
       /\ dict_get res "mars_longitude" = Ok (VFloat mars_lon)
       /\ dict_get res "mars_house" = Ok (VInt h).
Proof.
  unfold ManglikRule.check. rewrite mars_longitude_eq. cbn [bind].
  eexists. eexists. split; [reflexivity |].
  cbv zeta. repeat split; reflexivity.
Qed.

End ManglikBands.

(** ** The dasha around the circle *)

Lemma Qfloor_plus_Z (q : Q) (z : Z) : Qfloor (q + inject_Z z) = Qfloor q + z.
Proof.
  apply Qfloor_eq_iff.
  pose proof (Qfloor_le q) as Hlo. pose proof (Qlt_floor q) as Hhi.
  rewrite !inject_Z_plus in *. split; lra.
Qed.

Lemma nak_deg_times_9 : 9 * nak_deg == 120.
Proof. reflexivity. Qed.

Lemma nak_index_shift (L : Q) : nak_index (L + 120) = nak_index L + 9.
Proof.
  rewrite !nak_index_floor. fold nak_deg.
  rewrite <- Qfloor_plus_Z. apply Qfloor_comp.
  change (inject_Z 9) with 9%Q. unfold nak_deg. field.
Qed.

Lemma rot_shift (L : Q) : rot (L + 120) = rot L.
Proof.
  unfold rot. rewrite nak_index_shift.
  change (Z.of_nat (List.length SEQUENCE)) with 9.
  replace (nak_index L + 9) with (nak_index L + 1 * 9) by lia.
  apply Z_mod_plus_full.
Qed.

Lemma deg_into_nak_shift (L : Q) : deg_into_nak (L + 120) == deg_into_nak L.
Proof.
  unfold deg_into_nak. rewrite nak_index_shift, inject_Z_plus.
  change (inject_Z 9) with 9%Q. pose proof nak_deg_times_9 as H9.
  set (f := inject_Z (nak_index L)) in *.
  assert (E1 : (f + 9) * nak_deg == f * nak_deg + 9 * nak_deg) by ring.
  rewrite E1. lra.
Qed.

Lemma prop_shift (L : Q) : prop (L + 120) == prop L.
Proof. unfold prop. now rewrite deg_into_nak_shift. Qed.

Lemma lord_of_rotation_bounds (r : Z) :
  0 <= r < 9 ->
  exists lord len,
    list_get (rotate r SEQUENCE) 0 = Ok lord
    /\ list_get SEQUENCE r = Ok lord
    /\ dict_get LENGTHS lord = Ok len
    /\ 6 <= len <= 20.
Proof.
  intros Hr. destruct (small_cases 9 r Hr) as (a & Ha & ->).
  do 9 (destruct a as [| a];
        [do 2 eexists; split; [reflexivity |]; split; [reflexivity |];
         split; [reflexivity | lia] |]).
  simpl in Ha; lia.
Qed.

Lemma remaining_value (L : Q) :
  exists lord len,
    first_lord L = Ok lord
    /\ list_get SEQUENCE (rot L) = Ok lord
    /\ dict_get LENGTHS lord = Ok len
    /\ 6 <= len <= 20
    /\ remaining_years_first L = Ok (inject_Z len * (1 - prop L))%Q.
Proof.
  destruct (lord_of_rotation_bounds (rot L) (rot_range L))
    as (lord & len & Hl & Hs & Hlen & Hb).
  exists lord, len. split; [exact Hl |]. split; [exact Hs |].
  split; [exact Hlen |]. split; [exact Hb |].
  unfold remaining_years_first.
  assert (Hf : first_lord L = Ok lord) by exact Hl.
  rewrite Hf. cbn [bind]. rewrite Hlen. reflexivity.
Qed.




(* ================================================================= *)
(** ** The chart and the rules *)

Lemma dict_lookup_map {V W : Type} (g : V -> W) (k : string)
  (d : list (string * V)) :
  dict_lookup k (map (fun '(name, v) => (name, g v)) d)
  = option_map g (dict_lookup k d).
Proof.
  induction d as [| [k' v] d IH]; [reflexivity |].
  cbn [map dict_lookup]. destruct (String.eqb k k'); [reflexivity | exact IH].
Qed.

Lemma dict_keys_map {V W : Type} (g : V -> W) (d : list (string * V)) :
  dict_keys (map (fun '(name, v) => (name, g v)) d) = dict_keys d.
Proof.
  unfold dict_keys. rewrite map_map. apply map_ext. now intros [k v].
Qed.

Lemma list_get_In {A : Type} (l : list A) (i : Z) (a : A) :
  list_get l i = Ok a -> In a l.
Proof.
  unfold list_get. cbv zeta. destruct (_ || _); [discriminate |].
  destruct (nth_error l _) as [x |] eqn:Hn; [| discriminate].
  intros [= <-]. eapply nth_error_In. exact Hn.
Qed.

Section ChartAndRules.
Context {E : EphemerisProvider}.


Lemma get_entries (ac : AstroCalc.t) (sign : string) (moon_lon : Q) :
  AstroCalc.moon_sign ac = Ok (sign, moon_lon) ->
  exists (res : list (string * pyval)) (text : string),
    MoonSignRule.get ac = Ok res
    /\ dict_keys res = ["moon_sign"; "moon_longitude"; "explanation"]
    /\ dict_get res "moon_sign" = Ok (VStr sign)
    /\ dict_get res "moon_longitude" = Ok (VFloat moon_lon)
    /\ dict_get res "explanation" = Ok (VStr text).
Proof.
  intros Hm. unfold MoonSignRule.get. rewrite Hm. cbn [bind].
  eexists. eexists. split; [reflexivity |]. repeat split; reflexivity.
Qed.

Lemma current_dasha_entries (ac : AstroCalc.t) :
  exists (res : list (string * pyval)) (lord text : string),
    current_dasha ac = Ok res
    /\ dict_keys res = ["mahadasha"; "explanation"; "moon_longitude"]
    /\ dict_get res "mahadasha" = Ok (VStr lord)
    /\ dict_get res "explanation" = Ok (VStr text)
    /\ dict_get res "moon_longitude"
       = Ok (VFloat
               (float_mod (swe_calc_ut (AstroCalc.julian_day ac) MOON) 360)).
Proof.
  set (L := float_mod (swe_calc_ut (AstroCalc.julian_day ac) MOON) 360).
  destruct (remaining_value L) as (lord & len & Hl & _ & _ & _ & Hrem).
  unfold current_dasha. rewrite moon_longitude_eq. cbn [bind]. fold L.
  rewrite Hl. cbn [bind]. rewrite Hrem. cbn [bind].
  eexists. exists lord. eexists. split; [reflexivity |].
  repeat split; reflexivity.
Qed.

End ChartAndRules.

(* ================================================================= *)
(** ** The fields of the date and of the time *)

Lemma str_split_length (sep : ascii) (s : string) :
  List.length (str_split sep s) = S (count_char sep s).
Proof.
  induction s as [| c s IH]; [reflexivity |].
  cbn [str_split count_char]. destruct (Ascii.eqb c sep).
  - cbn [List.length]. now rewrite IH.
  - destruct (str_split sep s) as [| w ws]; [discriminate IH |].
    cbn [List.length] in *. exact IH.
Qed.

Lemma str_split_fields (sep : ascii) (s : string) :
  Forall (fun p => has_char sep p = false) (str_split sep s).
Proof.
  induction s as [| c s IH]; [repeat constructor |].
  cbn [str_split]. destruct (Ascii.eqb c sep) eqn:Hc.
  - constructor; [reflexivity | exact IH].
  - destruct (str_split sep s) as [| w ws]; [repeat constructor; cbn; now rewrite Hc |].
    inversion IH as [| ? ? Hw Hws]; subst.
    constructor; [| exact Hws]. cbn [has_char]. now rewrite Hc, Hw.
Qed.

Lemma mapM_Forall2 {A B : Type} (f : A -> result B) (l : list A) (l' : list B) :
  mapM f l = Ok l' -> Forall2 (fun a b => f a = Ok b) l l'.
Proof.
  revert l'. induction l as [| a l IH]; intros l'; cbn [mapM].
  - intros [= <-]. constructor.
  - destruct (f a) as [b |] eqn:Ha; cbn [bind]; [| discriminate].
    destruct (mapM f l) as [bs |]; cbn [bind]; [| discriminate].
    intros [= <-]. constructor; [exact Ha | now apply IH].
Qed.

Lemma has_char_lstrip (c : ascii) (s : string) :
  has_char c s = false -> has_char c (lstrip s) = false.
Proof.
  induction s as [| x s IH]; [reflexivity |].
  cbn [lstrip]. destruct (is_space x); [| trivial].
  cbn [has_char]. intros H. apply orb_false_iff in H. now apply IH.
Qed.

Lemma has_char_rstrip (c : ascii) (s : string) :
  has_char c s = false -> has_char c (rstrip s) = false.
Proof.
  induction s as [| x s IH]; [reflexivity |].
  cbn [has_char rstrip]. intros H. apply orb_false_iff in H.
  destruct H as [Hx Hs]. specialize (IH Hs).
  destruct (rstrip s) as [| y t].
  - destruct (is_space x); [reflexivity |]. cbn [has_char]. now rewrite Hx.
  - cbn [has_char] in *. now rewrite Hx, IH.
Qed.

Lemma digit_value_nonneg (c : ascii) : is_digit c = true -> 0 <= digit_value c.
Proof.
  unfold is_digit, digit_value. cbv zeta.
  rewrite andb_true_iff, !N.leb_le. lia.
Qed.

Lemma read_digits_nonneg (s : string) :
  forall acc prev z, 0 <= acc -> read_digits s acc prev = Some z -> 0 <= z.
Proof.
  induction s as [| c s IH]; intros acc prev z Hacc; cbn [read_digits].
  - destruct prev; [discriminate | now intros [= <-]].
  - destruct (is_digit c) eqn:Hd.
    + apply IH. pose proof (digit_value_nonneg c Hd). lia.
    + destruct (Ascii.eqb c "_"); [| discriminate].
      destruct prev; [discriminate | now apply IH].
Qed.

Lemma read_unsigned_nonneg (s : string) (z : Z) :
  read_unsigned s = Some z -> 0 <= z.
Proof.
  unfold read_unsigned. destruct s as [| c s]; [discriminate |].
  destruct (is_digit c); [| discriminate].
  now apply read_digits_nonneg.
Qed.

(** Without a minus sign in the text, [int] returns no negative number. *)
Lemma int_of_str_nonneg (s : string) (z : Z) :
  has_char "-" s = false -> int_of_str s = Ok z -> 0 <= z.
Proof.
  intros Hs. unfold int_of_str. cbv zeta.
  assert (Ht : has_char "-" (strip s) = false)
    by (unfold strip; now apply has_char_rstrip, has_char_lstrip).
  destruct (strip s) as [| c t].
  - destruct (read_unsigned EmptyString) eqn:Hr; [| discriminate].
    intros [= <-]. now apply (read_unsigned_nonneg EmptyString).
  - destruct c as [[] [] [] [] [] [] [] []];
      try (destruct (read_unsigned (String _ t)) eqn:Hr; [| discriminate];
           intros [= <-]; now apply (read_unsigned_nonneg _ _ Hr));
      try (destruct (read_unsigned t) eqn:Hr; [| discriminate];
           intros [= <-]; now apply (read_unsigned_nonneg _ _ Hr)).
    cbn in Ht. discriminate.
Qed.

Lemma parse_date_hyphen_count (b : Birth.t) :
  count_char "-" (Birth.date b) <> 2%nat ->
  AstroCalc.parse_date b = Raise ValueError.
Proof.
  intros Hc. unfold AstroCalc.parse_date, AstroCalc.int_fields.
  pose proof (str_split_length "-" (Birth.date b)) as Hlen.
  destruct (mapM int_of_str (str_split "-" (Birth.date b))) as [ds | e] eqn:Hm;
    cbn [bind].
  - apply mapM_Forall2, Forall2_length in Hm. rewrite Hlen in Hm.
    destruct ds as [| ? [| ? [| ? [| ? ?]]]]; cbn in *; try reflexivity.
    congruence.
  - apply mapM_int_error in Hm. now subst e.
Qed.

(** X14.  A date text that does not hold exactly two hyphens raises
    [ValueError]; a date that is read has no negative year, month or day,
    since the hyphen is the separator. *)
Theorem parse_date_needs_two_hyphens (b : Birth.t) :
  (count_char "-" (Birth.date b) <> 2%nat ->
   AstroCalc.parse_date b = Raise ValueError)
  /\ (forall y m d : Z,
        AstroCalc.parse_date b = Ok (y, m, d) -> 0 <= y /\ 0 <= m /\ 0 <= d).
Proof.
  split; [apply parse_date_hyphen_count |].
  unfold AstroCalc.parse_date, AstroCalc.int_fields.
  pose proof (str_split_fields "-" (Birth.date b)) as Hf.
  destruct (mapM int_of_str (str_split "-" (Birth.date b))) as [ds | e] eqn:Hm;
    cbn [bind]; [| discriminate].
  apply mapM_Forall2 in Hm. intros y m d Hu.
  assert (Hnn : Forall (fun z => 0 <= z) ds).
  { clear Hu. induction Hm as [| s z ss zs Hs _ IH]; [constructor |].
    inversion Hf as [| ? ? Fs Fss]; subst.
    constructor; [now apply (int_of_str_nonneg s) | now apply IH]. }
  destruct ds as [| y' [| m' [| d' [| ? ?]]]]; try discriminate.
  injection Hu as -> -> ->.
  inversion Hnn as [| ? ? Hy Hnn1]; subst.
  inversion Hnn1 as [| ? ? Hm' Hnn2]; subst.
  inversion Hnn2 as [| ? ? Hd' _]; subst.
  now repeat split.
Qed.

(* ================================================================= *)
(** ** The minute of the Julian Day *)

Section JulianDay.
Context {E : EphemerisProvider}.


(** X16.  The constructor stores the latitude and the longitude as given:
    any two numbers are accepted in their place, and the Julian Day does not
    depend on them. *)
Theorem location_is_stored_unchecked (b : Birth.t) (ac : AstroCalc.t) (la lo : Q) :
  AstroCalc.init b = Ok ac ->
  AstroCalc.birth ac = b
  /\ AstroCalc.lat ac = Birth.lat b
  /\ AstroCalc.lon ac = Birth.lon b
  /\ exists ac' : AstroCalc.t,
      AstroCalc.init (Birth.mk (Birth.date b) (Birth.time b) la lo (Birth.tz b))
      = Ok ac'
      /\ AstroCalc.julian_day ac' = AstroCalc.julian_day ac
      /\ AstroCalc.lat ac' = la /\ AstroCalc.lon ac' = lo.
Proof.
  rewrite !init_of_ut.
  assert (Hut : AstroCalc.ut_datetime
                  (Birth.mk (Birth.date b) (Birth.time b) la lo (Birth.tz b))
                = AstroCalc.ut_datetime b) by (destruct b; reflexivity).
  rewrite Hut.
  destruct (AstroCalc.ut_datetime b) as [dt |]; cbn [bind]; [| discriminate].
  intros [= <-]. cbn. repeat split; try reflexivity.
  eexists. split; [reflexivity |]. cbn. repeat split; reflexivity.
Qed.
End JulianDay.

(* ================================================================= *)
(** ** The intents of a question *)

Lemma orb_absorb (a b : bool) : (b = true -> a = true) -> a || b = a.
Proof. destruct a, b; intros H; try reflexivity. now rewrite H. Qed.

Lemma contains_longer (short long q : string) :
  str_contains short long = true ->
  str_contains long q = true -> str_contains short q = true.
Proof. apply str_contains_trans. Qed.

Lemma manglik_keys_reduced (q : string) :
  any_in MANGLIK_KEYS q
  = str_contains "manglik" q || str_contains "mangal" q.
Proof.
  unfold any_in, MANGLIK_KEYS. cbn [existsb]. rewrite orb_false_r.
  destruct (str_contains "manglik" q) eqn:H1; [reflexivity |].
  cbn [orb]. apply orb_absorb. intros H.
  rewrite (contains_longer "manglik" "manglik dosha" q) in H1;
    [discriminate | reflexivity | exact H].
Qed.

Lemma moon_keys_reduced (q : string) :
  any_in MOON_KEYS q = str_contains "moon" q || str_contains "chandra" q.
Proof.
  unfold any_in, MOON_KEYS. cbn [existsb]. rewrite orb_false_r.
  destruct (str_contains "moon" q) eqn:H1.
  - now rewrite orb_true_r.
  - cbn [orb]. destruct (str_contains "moon sign" q) eqn:H2; [| reflexivity].
    rewrite (contains_longer "moon" "moon sign" q) in H1;
      [discriminate | reflexivity | exact H2].
Qed.

Lemma dasha_keys_reduced (q : string) :
  any_in DASHA_KEYS q = str_contains "dasha" q || str_contains "vimshottari" q.
Proof.
  unfold any_in, DASHA_KEYS. cbn [existsb]. rewrite orb_false_r.
  destruct (str_contains "dasha" q) eqn:H1; [reflexivity |].
  cbn [orb]. destruct (str_contains "mahadasha" q) eqn:H2; [| reflexivity].
  rewrite (contains_longer "dasha" "mahadasha" q) in H1;
    [discriminate | reflexivity | exact H2].
Qed.

Lemma chart_keys_reduced (q : string) :
  any_in CHART_KEYS q = str_contains "chart" q || str_contains "house" q.
Proof.
  unfold any_in, CHART_KEYS. cbn [existsb]. rewrite orb_false_r.
  destruct (str_contains "chart" q) eqn:H1; [reflexivity |]. cbn [orb].
  destruct (str_contains "house" q) eqn:H2.
  - now rewrite orb_true_r.
  - destruct (str_contains "houses" q) eqn:H3.
    { rewrite (contains_longer "house" "houses" q) in H2;
        [discriminate | reflexivity | exact H3]. }
    destruct (str_contains "full chart" q) eqn:H4.
    { rewrite (contains_longer "chart" "full chart" q) in H1;
        [discriminate | reflexivity | exact H4]. }
    destruct (str_contains "show chart" q) eqn:H5; [| reflexivity].
    rewrite (contains_longer "chart" "show chart" q) in H1;
      [discriminate | reflexivity | exact H5].
Qed.

Section Answers.
Context {E : EphemerisProvider} {B : Builtins}.

Lemma manglik_answer_ok (calc : AstroCalc.t) :
  exists a, App.manglik_answer calc = Ok a /\ intent_of a = Some "manglik".
Proof.
  destruct (check_entries calc) as (res & text & Hres & Hent).
  cbv zeta in Hent. destruct Hent as (_ & Hc & Hx & Ht & Hl & Hh).
  unfold App.manglik_answer. rewrite Hres. cbn [bind].
  rewrite Hc. cbn [bind]. rewrite Hx. cbn [bind].
  rewrite Hl. cbn [bind]. rewrite Hh. cbn [bind].
  eexists. split; reflexivity.
Qed.

Lemma moon_sign_answer_ok (calc : AstroCalc.t) :
  exists a, App.moon_sign_answer calc = Ok a /\ intent_of a = Some "moon_sign".
Proof.
  destruct (moon_sign_ok calc) as (s & L & Hm & _ & _).
  destruct (get_entries calc s L Hm) as (res & text & Hres & _ & Hs & Hl & Hx).
  unfold App.moon_sign_answer. rewrite Hres. cbn [bind].
  rewrite Hs. cbn [bind]. rewrite Hx. cbn [bind]. rewrite Hl. cbn [bind].
  eexists. split; reflexivity.
Qed.

Lemma dasha_answer_ok (calc : AstroCalc.t) :
  exists a, App.dasha_answer calc = Ok a /\ intent_of a = Some "dasha".
Proof.
  destruct (current_dasha_entries calc)
    as (res & lord & text & Hres & _ & Hm & Hx & Hl).
  unfold App.dasha_answer. rewrite Hres. cbn [bind].
  rewrite Hm. cbn [bind]. rewrite Hx. cbn [bind]. rewrite Hl. cbn [bind].
  eexists. split; reflexivity.
Qed.

Lemma collect_answers_intents (calc : AstroCalc.t) (computed : Chart.t)
  (q : string) :
  exists answers : list jval,
    App.collect_answers calc computed q = Ok answers
    /\ map intent_of answers = map Some (intents_of_question q)
    /\ (1 <= List.length answers <= 4)%nat.
Proof.
  destruct (manglik_answer_ok calc) as (a1 & H1 & I1).
  destruct (moon_sign_answer_ok calc) as (a2 & H2 & I2).
  destruct (dasha_answer_ok calc) as (a3 & H3 & I3).
  unfold App.collect_answers, App.append_if, intents_of_question.
  rewrite manglik_keys_reduced, moon_keys_reduced, dasha_keys_reduced,
    chart_keys_reduced, H1, H2, H3.
  destruct (str_contains "manglik" q || str_contains "mangal" q);
    destruct (str_contains "moon" q || str_contains "chandra" q);
    destruct (str_contains "dasha" q || str_contains "vimshottari" q);
    destruct (str_contains "chart" q || str_contains "house" q);
    cbn [bind app]; eexists; (split; [reflexivity |]);
    cbn [map intent_of dict_lookup String.eqb Ascii.eqb Bool.eqb];
    rewrite ?I1, ?I2, ?I3; (split; [reflexivity | cbn; lia]).
Qed.


(** X4.  A missing place, a place made of white space only and any place
    that is not found give the place-not-found object, whatever the date,
    the time, the time zone and the question: nothing else is read. *)
Theorem blank_or_unknown_place_is_reported (place : option string) :
  place = None
  \/ (exists s, place = Some s /\ all_space s = true)
  \/ lookup_place place = None ->
  lookup_place place = None
  /\ forall (dob time tz : string) (question : option string),
      App.answer_query_value dob time place tz question
      = Ok (JDict [("error", JStr PLACE_NOT_FOUND)])
      /\ App.answer_query dob time place tz question
         = Ok (json_dumps (JDict [("error", JStr PLACE_NOT_FOUND)])).
Proof.
  intros H.
  assert (Hn : lookup_place place = None).
  { destruct H as [-> | [(s & -> & Hs) | H]]; [reflexivity | | exact H].
    rewrite lookup_place_by_key. unfold place_key.
    now rewrite (strip_all_space s Hs). }
  split; [exact Hn |]. intros dob time tz question.
  assert (Hv : App.answer_query_value dob time place tz question
               = Ok (JDict [("error", JStr PLACE_NOT_FOUND)]))
    by (unfold App.answer_query_value; now rewrite Hn).
  split; [exact Hv |]. unfold App.answer_query. now rewrite Hv.
Qed.

Lemma init_parse_date_raises (b : Birth.t) (e : exn) :
  AstroCalc.parse_date b = Raise e -> AstroCalc.init b = Raise ValueError.
Proof.
  intros He. pose proof (parse_date_error b e He) as ->.
  rewrite init_of_ut. unfold AstroCalc.ut_datetime, AstroCalc.local_datetime.
  now rewrite He.
Qed.

(** X6.  For a known place [answer_query] reports no error of its own: the
    exception raised by [float] on the time zone, or by the constructor, is
    raised to the caller, [ValueError] for a date without exactly two
    hyphens. *)
Theorem answer_query_raises_on_bad_input
  (dob time tz : string) (place question : option string) (p : Place.t) :
  lookup_place place = Some p ->
  (forall e, float_of_str tz = Raise e ->
             App.answer_query dob time place tz question = Raise e)
  /\ (forall tzf e,
        float_of_str tz = Ok tzf ->
        AstroCalc.init
          (Birth.mk (strip dob) (strip time) (Place.lat p) (Place.lon p)
             (Some tzf))
        = Raise e ->
        App.answer_query dob time place tz question = Raise e)
  /\ (forall tzf,
        float_of_str tz = Ok tzf ->
        count_char "-" (strip dob) <> 2%nat ->
        App.answer_query dob time place tz question = Raise ValueError).
Proof.
  intros Hp.
  assert (Hinit : forall tzf e,
            float_of_str tz = Ok tzf ->
            AstroCalc.init
              (Birth.mk (strip dob) (strip time) (Place.lat p) (Place.lon p)
                 (Some tzf))
            = Raise e ->
            App.answer_query dob time place tz question = Raise e).
  { intros tzf e Htz Hi. unfold App.answer_query, App.answer_query_value.
    rewrite Hp, Htz. cbn [bind]. rewrite Hi. reflexivity. }
  split; [| split; [exact Hinit |]].
  - intros e He. unfold App.answer_query, App.answer_query_value.
    rewrite Hp, He. reflexivity.
  - intros tzf Htz Hc. apply (Hinit tzf ValueError Htz).
    set (b := Birth.mk (strip dob) (strip time) (Place.lat p) (Place.lon p)
                (Some tzf)).
    apply (init_parse_date_raises b ValueError).
    now apply parse_date_hyphen_count.
Qed.
End Answers.

(* ================================================================= *)
(** ** The properties at sample inputs *)

(** Upper case and padding around the name of a city. *)
Lemma lookup_place_ignores_case_and_padding_witness :
  lower "DELHI" = lower "delhi"
  /\ all_space "  " = true /\ all_space " " = true
  /\ lookup_place (Some ("  " ++ "DELHI" ++ " ")%string)
     = lookup_place (Some "delhi").
Proof.
  assert (H1 : lower "DELHI" = lower "delhi") by reflexivity.
  assert (H2 : all_space "  " = true) by reflexivity.
  assert (H3 : all_space " " = true) by reflexivity.
  split; [exact H1 |]. split; [exact H2 |]. split; [exact H3 |].
  exact (lookup_place_ignores_case_and_padding "DELHI" "delhi" "  " " " H1 H2 H3).
Defined.

(** Mumbai is in the table. *)
Lemma lookup_place_returns_table_entry_witness :
  lookup_place (Some "Mumbai") = Some (Place.mk (19076 # 1000) (728777 # 10000))
  /\ exists k, In (k, Place.mk (19076 # 1000) (728777 # 10000)) PLACE_DICT.
Proof.
  assert (H : lookup_place (Some "Mumbai")
              = Some (Place.mk (19076 # 1000) (728777 # 10000)))
    by reflexivity.
  split; [exact H |].
  exact (proj1 (lookup_place_returns_table_entry _ _ H)).
Defined.

(** A city followed by a country: the whole text is no key, the token
    [delhi] is, and the entry returned is that of Delhi. *)
Lemma lookup_place_exact_key_then_first_token_witness :
  lookup_place (Some "New Delhi, India")
  = Some (Place.mk (287041 # 10000) (771025 # 10000))
  /\ (dict_lookup (place_key "New Delhi, India") PLACE_DICT
      = Some (Place.mk (287041 # 10000) (771025 # 10000))
      \/ (dict_lookup (place_key "New Delhi, India") PLACE_DICT = None
          /\ exists before token after,
              place_tokens (place_key "New Delhi, India")
              = before ++ token :: after
              /\ Forall (fun t => dict_lookup t PLACE_DICT = None) before
              /\ dict_lookup token PLACE_DICT
                 = Some (Place.mk (287041 # 10000) (771025 # 10000))
              /\ has_char " " token = false /\ has_char "," token = false)).
Proof.
  assert (H : lookup_place (Some "New Delhi, India")
              = Some (Place.mk (287041 # 10000) (771025 # 10000)))
    by reflexivity.
  split; [exact H |].
  exact (lookup_place_exact_key_then_first_token _ _ H).
Defined.

(** A date written with slashes. *)
Lemma parse_date_needs_two_hyphens_witness :
  count_char "-" (Birth.date AppFixture.birth_slashes) <> 2%nat
  /\ AstroCalc.parse_date AppFixture.birth_slashes = Raise ValueError
  /\ AstroCalc.parse_date Fixture.birth = Ok (2006, 10, 12)
  /\ 0 <= 2006 /\ 0 <= 10 /\ 0 <= 12.
Proof.
  assert (H1 : count_char "-" (Birth.date AppFixture.birth_slashes) <> 2%nat)
    by discriminate.
  assert (H2 : AstroCalc.parse_date Fixture.birth = Ok (2006, 10, 12))
    by reflexivity.
  split; [exact H1 |].
  split; [exact (proj1 (parse_date_needs_two_hyphens AppFixture.birth_slashes) H1) |].
  split; [exact H2 |].
  exact (proj2 (parse_date_needs_two_hyphens Fixture.birth) _ _ _ H2).
Defined.


(** A latitude of 1000 degrees is accepted. *)
Lemma location_is_stored_unchecked_witness :
  @AstroCalc.init Fixture.stub Fixture.birth = Ok Fixture.ac
  /\ exists ac' : AstroCalc.t,
      @AstroCalc.init Fixture.stub
        (Birth.mk (Birth.date Fixture.birth) (Birth.time Fixture.birth)
           1000 (- (500)) (Birth.tz Fixture.birth))
      = Ok ac'
      /\ AstroCalc.julian_day ac' = AstroCalc.julian_day Fixture.ac
      /\ AstroCalc.lat ac' = 1000%Q /\ AstroCalc.lon ac' = (- (500))%Q.
Proof.
  assert (H : @AstroCalc.init Fixture.stub Fixture.birth = Ok Fixture.ac)
    by (vm_compute; reflexivity).
  split; [exact H |].
  exact (proj2 (proj2 (proj2
    (@location_is_stored_unchecked Fixture.stub Fixture.birth Fixture.ac
       1000 (- (500)) H)))).
Defined.


(** A place made of blanks. *)
Lemma blank_or_unknown_place_is_reported_witness :
  all_space "   " = true
  /\ lookup_place (Some "   ") = None
  /\ @App.answer_query_value Fixture.stub AppFixture.builtins
       "not a date" EmptyString (Some "   ") EmptyString None
     = Ok (JDict [("error", JStr PLACE_NOT_FOUND)]).
Proof.
  assert (H : all_space "   " = true) by reflexivity.
  split; [exact H |].
  destruct (@blank_or_unknown_place_is_reported Fixture.stub
              AppFixture.builtins (Some "   "))
    as [Hn Hall].
  - right. left. exists "   ". split; [reflexivity | exact H].
  - split; [exact Hn |]. exact (proj1 (Hall "not a date" EmptyString EmptyString None)).
Defined.

(** A time zone that is not a number, and a date written with slashes. *)
Lemma answer_query_raises_on_bad_input_witness :
  lookup_place (Some "Delhi")
  = Some (Place.mk (287041 # 10000) (771025 # 10000))
  /\ @App.answer_query Fixture.stub AppFixture.builtins
       "2006-10-12" "20:27" (Some "Delhi") "IST" None
     = Raise ValueError
  /\ @App.answer_query Fixture.stub AppFixture.builtins
       "2006/10/12" "20:27" (Some "Delhi") "5.5" None
     = Raise ValueError.
Proof.
  assert (Hp : lookup_place (Some "Delhi")
               = Some (Place.mk (287041 # 10000) (771025 # 10000)))
    by reflexivity.
  split; [exact Hp |]. split.
  - destruct (@answer_query_raises_on_bad_input Fixture.stub
                AppFixture.builtins "2006-10-12" "20:27" "IST" (Some "Delhi")
                None _ Hp) as (H & _ & _).
    apply H. reflexivity.
  - destruct (@answer_query_raises_on_bad_input Fixture.stub
                AppFixture.builtins "2006/10/12" "20:27" "5.5" (Some "Delhi")
                None _ Hp) as (_ & _ & H).
    apply (H (11 # 2)); [reflexivity | discriminate].
Defined.
